(** * Entity commands of another pipeline configuration, and the Max publish hook

    Shallow embedding of
    - [src/python/tank/deploy/tank_commands/get_entity_commands.py]
      ([GetEntityCommandsAction]: [run_noninteractive], [_get_cache_name],
      [_get_env_name], [_load_cached_data], [_parse_cached_commands]);
    - [src/starter_configs/sg_step_above_entity/hooks/max_publish_file.py]
      ([MaxPubPublishFile.execute]).

    The code is Python 2 (the hook writes the octal literal [0444]); the
    cache content is the byte string printed by the other configuration's
    tank command, so [str.splitlines] breaks lines at LF, CR and CR LF only,
    [str.split] and [str.lower] work byte by byte (ASCII). *)

From Stdlib Require Import String Ascii ZArith List.
From stdpp Require Import base gmap strings list pretty.
Import ListNotations.

Open Scope Z_scope.

(* ------------------------------------------------------------------ *)
(** ** Python string primitives *)

Module Py.

Definition LF : ascii := "010"%char.
Definition CR : ascii := "013"%char.
Definition DOLLAR : ascii := "$"%char.

(** [s + c] for a one-character string [c]. *)
Definition snoc (s : string) (c : ascii) : string := String.append s (String c EmptyString).

(** [str.splitlines()] (no [keepends]): the loop of CPython's
    [stringlib/split.h], with the current, not yet terminated line in [cur]. *)
Fixpoint splitlines_go (cur : string) (s : string) : list string :=
  match s with
  | EmptyString => if String.eqb cur EmptyString then [] else [cur]
  | String c rest =>
      if Ascii.eqb c CR then
        match rest with
        | String c' rest' =>
            if Ascii.eqb c' LF then cur :: splitlines_go EmptyString rest'
            else cur :: splitlines_go EmptyString rest
        | EmptyString => [cur]
        end
      else if Ascii.eqb c LF then cur :: splitlines_go EmptyString rest
      else splitlines_go (snoc cur c) rest
  end.

Definition splitlines (s : string) : list string := splitlines_go EmptyString s.

(** [str.split(sep)] for a one-character separator: always at least one
    piece. *)
Fixpoint split_go (sep : ascii) (cur : string) (s : string) : list string :=
  match s with
  | EmptyString => [cur]
  | String c rest =>
      if Ascii.eqb c sep then cur :: split_go sep EmptyString rest
      else split_go sep (snoc cur c) rest
  end.

Definition split (s : string) (sep : ascii) : list string := split_go sep EmptyString s.

(** [str.lower()] on a byte string: ASCII upper-case letters only. *)
Definition lower_char (c : ascii) : ascii :=
  let n := nat_of_ascii c in
  if (65 <=? n)%nat && (n <=? 90)%nat then ascii_of_nat (n + 32) else c.

Fixpoint lower (s : string) : string :=
  match s with
  | EmptyString => EmptyString
  | String c rest => String (lower_char c) (lower rest)
  end.

(** [str.startswith(prefix)]. *)
Definition startswith (s prefix : string) : bool := String.prefix prefix s.

(** [str(n)] for an [int]. *)
Definition str_int (n : Z) : string := pretty n.

End Py.

(* ------------------------------------------------------------------ *)
(** ** Errors and commands *)

(** A [SubprocessCalledProcessError]: exit code and captured output. *)
Record called_process_error := CPE { returncode : Z; output : string }.

(** The [TankError]s raised by the action, one constructor per [raise]
    site, carrying the values formatted into its message. *)
Inductive tank_error :=
  | ErrGetCacheContent (e : called_process_error)
      (* "Error while trying to get the cache content. Details: e Output: e.output" *)
  | ErrUpdateCache (e : called_process_error)
      (* "Failed to update the cache. Details: e Output: e.output" *)
  | ErrUpdatedCacheContent (e : called_process_error)
      (* "Failed to get the content of the updated cache. ..." *)
  | ErrMissingTokens (line : string) (commands_data : string)
      (* "The cache is missing tokens on the line ... Full cache: ..." *).

(** Exceptions that can leave [_load_cached_data]: a [TankError], or the
    [IndexError] of [entities[0]] on an empty entity list. *)
Inductive exn :=
  | TankError (e : tank_error)
  | IndexError.

(** A command: the dictionary [{"name": .., "title": .., "icon": ..}]. *)
Record command := Command { name : string; title : string; icon : string }.

#[global] Instance command_eq_dec : EqDecision command.
Proof. solve_decision. Defined.

(* ------------------------------------------------------------------ *)
(** ** [_parse_cached_commands] *)

Definition mk_command (tokens : list string) : command :=
  Command (nth 0 tokens EmptyString) (nth 1 tokens EmptyString) (nth 4 tokens EmptyString).

Fixpoint parse_lines (commands_data : string) (lines : list string)
  : tank_error + list command :=
  match lines with
  | [] => inr []
  | line :: lines' =>
      let tokens := Py.split line Py.DOLLAR in
      if (length tokens <? 5)%nat then inl (ErrMissingTokens line commands_data)
      else match parse_lines commands_data lines' with
           | inl e => inl e
           | inr cmds => inr (mk_command tokens :: cmds)
           end
  end.

Definition _parse_cached_commands (commands_data : string) : tank_error + list command :=
  parse_lines commands_data (Py.splitlines commands_data).

(* ------------------------------------------------------------------ *)
(** ** [_get_cache_name], [_get_env_name] *)

Definition _get_cache_name (platform entity_type : string) : string :=
  let platform_name :=
    if String.eqb platform "darwin" then "mac"%string
    else if String.eqb platform "win32" then "windows"%string
    else if Py.startswith platform "linux" then "linux"%string
    else platform in
  Py.lower (String.append "shotgun_"
              (String.append platform_name
                 (String.append "_" (String.append entity_type "_detailed.txt")))).

Definition _get_env_name (entity_type : string) : string :=
  String.append "shotgun_" (String.append (Py.lower entity_type) ".yml").

(* ------------------------------------------------------------------ *)
(** ** The external tank command and the action *)

(** What [execute_toolkit_command] gives back: the output of the command,
    or the [SubprocessCalledProcessError] it raises. *)
Inductive proc_result :=
  | Ok (out : string)
  | Failed (e : called_process_error).

(** One invocation of [execute_toolkit_command(pc_path, command, args)]. *)
Record call := Call { call_pc : string; call_command : string; call_args : list string }.

(** An entity [(entity_type, entity_id)]. *)
Abbreviation entity := (string * Z)%type.

Definition ERROR_CODE_CACHE_OUT_OF_DATE : Z := 1.
Definition ERROR_CODE_CACHE_NOT_FOUND : Z := 2.

Section Action.

(** The other pipeline configuration, seen from this process: its state
    (caches on disk, ...) and what running its tank command does. *)
Context {W : Type}.
Variable exec : W -> string -> string -> list string -> W * proc_result.
(** [sys.platform]. *)
Variable platform : string.

(** State threaded through the action: the world and the calls made. *)
Definition st : Type := (W * list call)%type.

(** State and exception monad. *)
Definition M (A : Type) : Type := st -> st * (exn + A).

Definition ret {A} (a : A) : M A := fun s => (s, inr a).
Definition bind {A B} (m : M A) (k : A -> M B) : M B :=
  fun s => match m s with
           | (s', inl x) => (s', inl x)
           | (s', inr a) => k a s'
           end.
Definition raise {A} (x : exn) : M A := fun s => (s, inl x).

Notation "'let!' x ':=' m 'in' k" := (bind m (fun x => k))
  (at level 200, x name, m at level 100, right associativity).

(** [try: ... except TankError as e: ...]; other exceptions propagate. *)
Definition catch_tank {A} (m : M A) : M (tank_error + A) :=
  fun s => match m s with
           | (s', inl (TankError e)) => (s', inr (inl e))
           | (s', inl x) => (s', inl x)
           | (s', inr a) => (s', inr (inr a))
           end.

Definition execute_toolkit_command (pc command : string) (args : list string)
  : M proc_result :=
  fun '(w, tr) =>
    let (w', r) := exec w pc command args in
    ((w', tr ++ [Call pc command args]), inr r).

Definition _load_cached_data (pipeline_config_path entity_type : string)
    (entities : list entity) : M string :=
  let cache_name := _get_cache_name platform entity_type in
  let env_name := _get_env_name entity_type in
  let! r1 := execute_toolkit_command pipeline_config_path "shotgun_get_actions"
               [cache_name; env_name] in
  match r1 with
  | Ok out => ret out
  | Failed e =>
      if negb (Z.eqb (returncode e) ERROR_CODE_CACHE_OUT_OF_DATE
               || Z.eqb (returncode e) ERROR_CODE_CACHE_NOT_FOUND)
      then raise (TankError (ErrGetCacheContent e))
      else
        match entities with
        | [] => raise IndexError
        | first :: _ =>
            let entity_id := snd first in
            let! r2 := execute_toolkit_command pipeline_config_path
                         "shotgun_cache_actions"
                         [entity_type; cache_name; Py.str_int entity_id] in
            let! _ := match r2 with
                      | Ok _ => ret tt
                      | Failed _ =>
                          let! r3 := execute_toolkit_command pipeline_config_path
                                       "shotgun_cache_actions"
                                       [entity_type; cache_name] in
                          match r3 with
                          | Ok _ => ret tt
                          | Failed e3 => raise (TankError (ErrUpdateCache e3))
                          end
                      end in
            let! r4 := execute_toolkit_command pipeline_config_path
                         "shotgun_get_actions" [cache_name; env_name] in
            match r4 with
            | Ok out => ret out
            | Failed e4 => raise (TankError (ErrUpdatedCacheContent e4))
            end
        end
  end.

(** [itertools.groupby(entities, operator.itemgetter(0))]: maximal
    contiguous runs of equal entity type, with their key. *)
Fixpoint groupby (entities : list entity) : list (string * list entity) :=
  match entities with
  | [] => []
  | e :: rest =>
      match groupby rest with
      | (k, g) :: gs =>
          if String.eqb (fst e) k then (k, e :: g) :: gs
          else (fst e, [e]) :: (k, g) :: gs
      | [] => [(fst e, [e])]
      end
  end.

Definition lift_tank {A} (r : tank_error + A) : M A :=
  match r with
  | inl e => raise (TankError e)
  | inr a => ret a
  end.

(** The body of the [try] of [run_noninteractive]. *)
Definition fetch_commands (pc : string) (entity_type : string)
    (entities_of_type : list entity) : M (list command) :=
  let! cache_content := _load_cached_data pc entity_type entities_of_type in
  lift_tank (_parse_cached_commands cache_content).

(** [for entity in entities_of_type: commands_per_entity[entity] = commands]. *)
Definition assign (entities_of_type : list entity) (commands : list command)
    (m : gmap entity (list command)) : gmap entity (list command) :=
  fold_left (fun m e => <[e := commands]> m) entities_of_type m.

(** What [log.error] receives: path, entity type and the error. *)
Definition log_entry : Type := (string * string * tank_error)%type.

Definition result : Type := (gmap entity (list command) * list log_entry)%type.

Fixpoint run_groups (pc : string) (groups : list (string * list entity))
    (acc : result) : M result :=
  match groups with
  | [] => ret acc
  | (entity_type, entities_of_type) :: groups' =>
      let! r := catch_tank (fetch_commands pc entity_type entities_of_type) in
      let acc' :=
        match r with
        | inr commands => (assign entities_of_type commands acc.1, acc.2)
        | inl e => (acc.1, acc.2 ++ [(pc, entity_type, e)])
        end in
      run_groups pc groups' acc'
  end.

Definition run_noninteractive (pipeline_config_path : string)
    (entities : list entity) : M result :=
  run_groups pipeline_config_path (groupby entities) (∅, []).

End Action.

(* ------------------------------------------------------------------ *)
(** ** [MaxPubPublishFile.execute]: [shutil.copy] then [os.chmod] *)

Module Hook.

(** A path as its list of components; a file system node with its
    permission bits ([S_IMODE] of [st_mode]), its owner and its group.
    Links and special files are not modelled: two paths name the same
    file exactly when they are equal. *)
Abbreviation path := (list string).

Inductive node :=
  | File (data : string) (mode uid gid : Z)
  | Dir (mode uid gid : Z).

Abbreviation fs := (gmap path node).

(** [IOError]/[OSError] of [open], [os.stat] and [os.chmod], and
    [shutil.Error] ("`src` and `dst` are the same file"). *)
Inductive error := SameFileError | IOError | OSError.

Definition basename (p : path) : string := List.last p EmptyString.

Definition join (p : path) (n : string) : path := p ++ [n].

Definition dirname (p : path) : path := removelast p.

(** The directories the kernel looks a path up through: its proper
    prefixes, the root [[]] first. *)
Definition ancestors (p : path) : list path :=
  map (fun k => take k p) (seq 0 (length p)).

Definition mode_of (n : node) : Z := match n with File _ m _ _ => m | Dir m _ _ => m end.

Definition owner_of (n : node) : Z := match n with File _ _ o _ => o | Dir _ o _ => o end.

Definition group_of (n : node) : Z := match n with File _ _ _ g => g | Dir _ _ g => g end.

Definition with_mode (n : node) (m : Z) : node :=
  match n with File d _ o g => File d m o g | Dir _ o g => Dir m o g end.

Section Hook.

(** The process running the hook: its effective user and group ids and
    its supplementary groups. *)
Variables (uid gid : Z) (groups : list Z).

Definition in_group (g : Z) : bool := Z.eqb g gid || existsb (Z.eqb g) groups.

(** The kernel's permission check of [bit] (4 read, 2 write, 1 search) on
    a node: the owner, group or other class of its mode, chosen by the
    process's ids. Root passes the read, write and directory search
    checks (the hook never executes a file). *)
Definition access (n : node) (bit : Z) : bool :=
  Z.eqb uid 0 ||
  (let shift := if Z.eqb (owner_of n) uid then 6
                else if in_group (group_of n) then 3 else 0 in
   negb (Z.eqb (Z.land (Z.shiftr (mode_of n) shift) bit) 0)).

(** A directory the process may search. *)
Definition dir_searchable (f : fs) (q : path) : bool :=
  match f !! q with
  | Some (Dir _ _ _ as n) => access n 1
  | _ => false
  end.

(** Path lookup succeeds when every directory on the way may be searched
    (otherwise ENOENT, ENOTDIR or EACCES). *)
Definition searchable (f : fs) (p : path) : bool :=
  forallb (dir_searchable f) (ancestors p).

(** [os.stat(p)]: [None] when it raises [OSError]. *)
Definition stat (f : fs) (p : path) : option node :=
  if searchable f p then f !! p else None.

(** [os.path.isdir(p)]: [False] when [os.stat] fails. *)
Definition isdir (f : fs) (p : path) : bool :=
  match stat f p with Some (Dir _ _ _) => true | _ => false end.

(** [shutil._samefile(src, dst)]: [os.path.samefile], [False] when one of
    its [os.stat] calls fails. *)
Definition samefile (f : fs) (src dst : path) : bool :=
  bool_decide (is_Some (stat f src)) && bool_decide (is_Some (stat f dst)) &&
  bool_decide (src = dst).

(** [open(src, 'rb')] and reading it: a regular file the process may read. *)
Definition open_read (f : fs) (src : path) : error + string :=
  match stat f src with
  | Some (File d _ _ _ as n) => if access n 4 then inr d else inl IOError
  | _ => inl IOError
  end.

(** [open(dst, 'wb')] followed by [copyfileobj]: truncate an existing file
    the process may write (its mode, owner and group are kept), or create
    [dst] in a directory the process may write and search. A new file
    belongs to the process, with the directory's group when the directory
    has the set-group-id bit (0o2000); its mode is 0666 (the umask is not
    modelled: [copymode] sets the mode right after). *)
Definition open_write (f : fs) (dst : path) (d : string) : error + fs :=
  if searchable f dst then
    match f !! dst with
    | Some (Dir _ _ _) => inl IOError
    | Some (File _ m o g as n) =>
        if access n 2 then inr (<[dst := File d m o g]> f) else inl IOError
    | None =>
        match f !! dirname dst with
        | Some (Dir mp _ gp as pn) =>
            if access pn 2 && access pn 1
            then inr (<[dst := File d 438 uid (if Z.testbit mp 10 then gp else gid)]> f)
            else inl IOError
        | _ => inl IOError
        end
    end
  else inl IOError.

(** The mode [chmod] sets: an unprivileged process outside the node's
    group loses the set-group-id bit (0o2000). *)
Definition chmod_mode (g : Z) (mode : Z) : Z :=
  if Z.eqb uid 0 || in_group g then mode else Z.land mode (Z.lnot 1024).

(** [os.chmod(p, mode)]: only root or the owner may change the mode
    (otherwise [OSError] EPERM). *)
Definition chmod (f : fs) (p : path) (mode : Z) : error + fs :=
  match stat f p with
  | Some n =>
      if Z.eqb uid 0 || Z.eqb (owner_of n) uid
      then inr (<[p := with_mode n (chmod_mode (group_of n) mode)]> f)
      else inl OSError
  | None => inl OSError
  end.

(** [shutil.copyfile]: refuses to copy a file onto itself, then reads
    [src] and writes [dst] (its check for named pipes never fires here). *)
Definition copyfile (f : fs) (src dst : path) : error + fs :=
  if samefile f src dst then inl SameFileError
  else match open_read f src with
       | inl e => inl e
       | inr d => open_write f dst d
       end.

(** [shutil.copymode]: [os.chmod(dst, S_IMODE(os.stat(src).st_mode))]. *)
Definition copymode (f : fs) (src dst : path) : error + fs :=
  match stat f src with
  | Some n => chmod f dst (Z.land (mode_of n) 4095)
  | None => inl OSError
  end.

(** [shutil.copy(src, dst)]. *)
Definition copy (f : fs) (src dst : path) : error + fs :=
  let dst := if isdir f dst then join dst (basename src) else dst in
  match copyfile f src dst with
  | inl e => inl e
  | inr f' => copymode f' src dst
  end.

(** [MaxPubPublishFile.execute(source_path, target_path)]. *)
Definition execute (f : fs) (source_path target_path : path) : error + fs :=
  match copy f source_path target_path with
  | inl e => inl e
  | inr f' => chmod f' target_path 292 (* 0444 *)
  end.

End Hook.

End Hook.

(* ------------------------------------------------------------------ *)
(** ** Vocabulary of the properties *)

(** Whether a string contains a line break of [str.splitlines]. *)
Fixpoint has_linebreak (s : string) : bool :=
  match s with
  | EmptyString => false
  | String c rest => Ascii.eqb c Py.LF || Ascii.eqb c Py.CR || has_linebreak rest
  end.

(** [N] lines joined by LF into one cache text. *)
Fixpoint join_lines (lines : list string) : string :=
  match lines with
  | [] => EmptyString
  | [l] => l
  | l :: ls => String.append l (String Py.LF (join_lines ls))
  end.

(** Token [i] of a cache line, [line.split("$")[i]]. *)
Definition token (line : string) (i : nat) : string := nth i (Py.split line Py.DOLLAR) EmptyString.

Definition ntokens (line : string) : nat := length (Py.split line Py.DOLLAR).

(** Whether a string ends in LF. *)
Definition ends_in_lf (s : string) : bool :=
  match String.get (pred (String.length s)) s with
  | Some c => Ascii.eqb c Py.LF
  | None => false
  end.

(** Entities of equal type occur in one contiguous run. *)
Definition contiguous (entities : list entity) : Prop :=
  forall l1 l2 l3 x z, entities = l1 ++ x :: l2 ++ z :: l3 -> fst x = fst z ->
    Forall (fun y => fst y = fst x) l2.

(** Number of distinct entity types. *)
Definition distinct_types (entities : list entity) : nat :=
  size (list_to_set (map fst entities) : gset string).

Abbreviation group_result := ((string * list entity) * (tank_error + list command))%type.

(** The command list of the last group containing [e] whose fetch
    succeeded. *)
Definition success_step (e : entity) (acc : option (list command)) (gr : group_result)
  : option (list command) :=
  match gr.2 with
  | inr c => if bool_decide (e ∈ gr.1.2) then Some c else acc
  | inl _ => acc
  end.

Definition last_success (e : entity) (grs : list group_result) : option (list command) :=
  fold_left (success_step e) grs None.

(** One log entry per failed group, in order. *)
Definition failed_log (pc : string) (grs : list group_result) : list log_entry :=
  flat_map (fun (gr : group_result) =>
              match gr.2 with
              | inl err => [(pc, gr.1.1, err)]
              | inr _ => []
              end) grs.

(** [N] lines joined by a line separator. *)
Fixpoint join_lines_with (sep : string) (lines : list string) : string :=
  match lines with
  | [] => EmptyString
  | [l] => l
  | l :: ls => String.append l (String.append sep (join_lines_with sep ls))
  end.

(** The line separators of [str.splitlines]. *)
Abbreviation sep_LF := (String Py.LF EmptyString).
Abbreviation sep_CR := (String Py.CR EmptyString).
Abbreviation sep_CRLF := (String Py.CR (String Py.LF EmptyString)).

(** What the read of [_load_cached_data] after a rebuild yields. *)
Definition reread (r : proc_result) : exn + string :=
  match r with
  | Ok out => inr out
  | Failed e4 => inl (TankError (ErrUpdatedCacheContent e4))
  end.


Section Runs.
Context {W : Type}.
Variable exec : W -> string -> string -> list string -> W * proc_result.
Variable platform : string.

(** The groups fetched one after the other, each from the state the
    previous ones left, with the outcome of its [try] block. *)
Inductive fetch_run (pc : string)
  : list (string * list entity) -> st -> list (tank_error + list command) -> st -> Prop :=
  | fetch_run_nil s : fetch_run pc [] s [] s
  | fetch_run_cons t es gs s s1 s2 r rs :
      catch_tank (fetch_commands exec platform pc t es) s = (s1, inr r) ->
      fetch_run pc gs s1 rs s2 ->
      fetch_run pc ((t, es) :: gs) s (r :: rs) s2.

End Runs.

(** A boolean check that entities of equal type are contiguous: each
    entity either continues the run of the next one or its type does not
    occur later. *)
Fixpoint contiguousb (entities : list entity) : bool :=
  match entities with
  | [] => true
  | e :: rest =>
      contiguousb rest &&
      (match rest with y :: _ => String.eqb (fst y) (fst e) | [] => true end
       || negb (existsb (String.eqb (fst e)) (map fst rest)))
  end.

(* ------------------------------------------------------------------ *)
(** ** Sample configurations *)

Definition sample_pc : string := "/sgtk/configs/project".
Definition sample_platform : string := "linux2".

(** A configuration whose tank command answers the [n]-th call with
    [answers n]; it counts the calls it received. *)
Definition counting_exec (answers : nat -> proc_result)
    (n : nat) (pc command : string) (args : list string) : nat * proc_result :=
  (S n, answers n).

(** Cache missing; the new calling convention is refused, the old one
    rebuilds the cache, which then reads back. *)
Definition answers_stale (n : nat) : proc_result :=
  match n with
  | 0%nat => Failed (CPE 2 "cache not found")
  | 1%nat => Failed (CPE 1 "unexpected argument")
  | 2%nat => Ok ""
  | _ => Ok "publish$Publish$$$icons/publish.png"
  end.

(** Up-to-date caches: one read per group. *)
Definition answers_fresh (n : nat) : proc_result :=
  match n with
  | 0%nat => Ok "publish$Publish$$$icons/publish.png"
  | _ => Ok "review$Review$$$icons/review.png"
  end.

(** Caches that all hold no command. *)
Definition answers_empty (n : nat) : proc_result := Ok "".

(** Two reads of the same cache that differ (the cache was rebuilt in
    between by another client). *)
Definition answers_changing (n : nat) : proc_result :=
  match n with
  | 0%nat => Ok "publish$Publish$$$icons/publish.png"
  | 1%nat => Ok ""
  | _ => Ok "review$Review$$$icons/review.png"
  end.

(** The third read fails with an unrelated exit code. *)
Definition answers_flaky (n : nat) : proc_result :=
  match n with
  | 0%nat => Ok "publish$Publish$$$icons/publish.png"
  | 1%nat => Ok ""
  | _ => Failed (CPE 3 "tank command crashed")
  end.

(** The user running the hook in the samples, and its primary group. *)
Definition sample_uid : Z := 1000.

Definition sample_gid : Z := 1000.

(** A source scene file and a publish directory, all owned by that user. *)
Definition sample_fs : Hook.fs :=
  <[["scene.max"] := Hook.File "scene data" 420 1000 1000]>   (* 0644 *)
  (<[["publish"] := Hook.Dir 493 1000 1000]>                   (* 0755 *)
  (<[[] := Hook.Dir 493 0 0]> ∅)).

(* ================================================================== *)
(** * Properties *)

(* ------------------------------------------------------------------ *)
(** ** Lines and tokens *)

Lemma append_nil_l (b : string) : String.append EmptyString b = b.
Proof. reflexivity. Qed.

Lemma append_cons (c : ascii) (a b : string) :
  String.append (String c a) b = String c (String.append a b).
Proof. reflexivity. Qed.

Lemma append_empty_r (s : string) : String.append s EmptyString = s.
Proof. induction s as [|c s IH]; [done | by rewrite append_cons, IH]. Qed.

Lemma append_assoc (a b c : string) :
  String.append (String.append a b) c = String.append a (String.append b c).
Proof. induction a as [|x a IH]; [done | by rewrite !append_cons, IH]. Qed.

Lemma append_nonempty_r (a b : string) : b <> EmptyString -> String.append a b <> EmptyString.
Proof. destruct a; [done | discriminate]. Qed.

Lemma splitlines_go_line (cur l rest : string) :
  has_linebreak l = false ->
  Py.splitlines_go cur (String.append l (String Py.LF rest)) =
  String.append cur l :: Py.splitlines_go EmptyString rest.
Proof.
  revert cur. induction l as [|c l IH]; intros cur Hl.
  - rewrite append_nil_l, append_empty_r. simpl. done.
  - rewrite append_cons. simpl.
    simpl in Hl. apply orb_false_iff in Hl as [Hl Hrest].
    apply orb_false_iff in Hl as [HLF HCR]. rewrite HCR, HLF.
    rewrite IH by done. unfold Py.snoc. by rewrite append_assoc.
Qed.

Lemma splitlines_go_last (cur l : string) :
  has_linebreak l = false -> String.append cur l <> EmptyString ->
  Py.splitlines_go cur l = [String.append cur l].
Proof.
  revert cur. induction l as [|c l IH]; intros cur Hl Hne; simpl.
  - rewrite append_empty_r in *. destruct (String.eqb_spec cur EmptyString); done.
  - simpl in Hl. apply orb_false_iff in Hl as [Hl Hrest].
    apply orb_false_iff in Hl as [HLF HCR]. rewrite HCR, HLF.
    unfold Py.snoc. rewrite IH, append_assoc; [done | done |].
    rewrite append_assoc, append_cons. apply append_nonempty_r. discriminate.
Qed.

(** A line with at least two tokens contains a [$], so it is not empty. *)
Lemma split_go_empty (sep : ascii) (cur : string) : Py.split_go sep cur EmptyString = [cur].
Proof. done. Qed.

Lemma ntokens_nonempty (l : string) : (2 <= ntokens l)%nat -> l <> EmptyString.
Proof. intros H ->. unfold ntokens, Py.split in H. simpl in H. lia. Qed.

Lemma splitlines_join_lines (lines : list string) :
  Forall (fun l => has_linebreak l = false /\ l <> EmptyString) lines ->
  Py.splitlines (join_lines lines) = lines.
Proof.
  unfold Py.splitlines. induction lines as [|l ls IH]; intros Hall; [done|].
  inversion Hall as [|? ? [Hl Hne] Hls]; subst.
  destruct ls as [|l' ls'].
  - simpl. by apply splitlines_go_last.
  - change (join_lines (l :: l' :: ls')) with
      (String.append l (String Py.LF (join_lines (l' :: ls')))).
    rewrite splitlines_go_line by done. rewrite append_nil_l. by rewrite IH.
Qed.

Lemma parse_lines_ok (d : string) (lines : list string) :
  Forall (fun l => (5 <= ntokens l)%nat) lines ->
  parse_lines d lines = inr (map (fun l => mk_command (Py.split l Py.DOLLAR)) lines).
Proof.
  induction lines as [|l ls IH]; intros Hall; [done|].
  inversion Hall as [|? ? Hl Hls]; subst. simpl.
  unfold ntokens in Hl. destruct (Nat.ltb_spec (length (Py.split l Py.DOLLAR)) 5); [lia|].
  by rewrite IH.
Qed.

Lemma parse_lines_bad (d : string) (lines : list string) :
  (exists l, In l lines /\ (ntokens l < 5)%nat) ->
  exists l, In l lines /\ (ntokens l < 5)%nat /\ parse_lines d lines = inl (ErrMissingTokens l d).
Proof.
  induction lines as [|l ls IH]; intros [l0 [Hin Hlt]]; [done|]. simpl.
  unfold ntokens in *.
  destruct (Nat.ltb_spec (length (Py.split l Py.DOLLAR)) 5) as [Hl|Hl].
  - exists l. split; [left|]; done.
  - destruct Hin as [<-|Hin]; [lia|].
    destruct IH as [l1 [Hin1 [Hlt1 ->]]]; [by exists l0|].
    exists l1. split; [right|]; done.
Qed.

(** Only the full-cache text of an error depends on the raw content. *)
Lemma parse_lines_data (d d' : string) (lines : list string) :
  parse_lines d lines =
  match parse_lines d' lines with
  | inl (ErrMissingTokens l _) => inl (ErrMissingTokens l d)
  | r => r
  end.
Proof.
  induction lines as [|l ls IH]; [done|]. simpl.
  destruct (length (Py.split l Py.DOLLAR) <? 5)%nat; [done|].
  rewrite IH. by destruct (parse_lines d' ls) as [[]|].
Qed.

Lemma ends_in_lf_cons (c : ascii) (rest : string) :
  ends_in_lf (String c rest) =
  match rest with EmptyString => Ascii.eqb c Py.LF | _ => ends_in_lf rest end.
Proof. unfold ends_in_lf. by destruct rest. Qed.

Lemma splitlines_go_newline (n : nat) (s cur : string) :
  (String.length s <= n)%nat -> s <> EmptyString -> ends_in_lf s = false ->
  Py.splitlines_go cur (String.append s (String Py.LF EmptyString)) = Py.splitlines_go cur s.
Proof.
  revert s cur. induction n as [|n IH]; intros s cur Hlen Hne Hend.
  { destruct s; simpl in Hlen; [done | lia]. }
  destruct s as [|c rest]; [done|]. rewrite append_cons.
  rewrite ends_in_lf_cons in Hend. simpl in Hlen. simpl.
  destruct (Ascii.eqb c Py.CR) eqn:HCR.
  - destruct rest as [|c' rest'].
    + done.
    + rewrite append_cons. destruct (Ascii.eqb c' Py.LF) eqn:HLF.
      * destruct rest' as [|c'' rest''].
        -- cbv beta iota in Hend. rewrite ends_in_lf_cons in Hend. by rewrite ?HLF in Hend.
        -- cbv beta iota in Hend. rewrite ends_in_lf_cons in Hend. f_equal. apply IH; [simpl in *; lia|done|done].
      * cbv beta iota in Hend. f_equal. rewrite <- append_cons. apply IH; [simpl in *; lia|done|done].
  - destruct (Ascii.eqb c Py.LF) eqn:HLF.
    + destruct rest as [|c' rest']; cbv beta iota in Hend; [by rewrite ?HLF in Hend|].
      f_equal. apply IH; [simpl in *; lia|done|done].
    + destruct rest as [|c' rest']; cbv beta iota in Hend.
      * rewrite append_nil_l. simpl.
        destruct (String.eqb_spec (Py.snoc cur c) EmptyString) as [E|]; [|done].
        exfalso. revert E. apply append_nonempty_r. discriminate.
      * apply IH; [simpl in *; lia|done|done].
Qed.

Lemma splitlines_newline (s : string) :
  s <> EmptyString -> ends_in_lf s = false ->
  Py.splitlines (String.append s (String Py.LF EmptyString)) = Py.splitlines s.
Proof. intros. by apply (splitlines_go_newline (String.length s)). Qed.

(* ------------------------------------------------------------------ *)
(** ** [_parse_cached_commands] *)

(** C1: a cache text made of [N] lines (joined by LF, free of line
    breaks), each splitting on [$] into at least 5 tokens, parses into [N]
    commands in line order, with name, title and icon the tokens 0, 1
    and 4 of their line. *)
Theorem parse_well_formed_cache (lines : list string) :
  Forall (fun l => has_linebreak l = false /\ (5 <= ntokens l)%nat) lines ->
  exists cmds, _parse_cached_commands (join_lines lines) = inr cmds /\
    Forall2 (fun l c => name c = token l 0 /\ title c = token l 1 /\ icon c = token l 4)
      lines cmds.
Proof.
  intros Hall. unfold _parse_cached_commands.
  rewrite splitlines_join_lines.
  2:{ eapply Forall_impl; [exact Hall|]. intros l [Hl H5].
      split; [done|]. apply ntokens_nonempty. lia. }
  rewrite parse_lines_ok.
  2:{ eapply Forall_impl; [exact Hall|]. by intros l [_ H5]. }
  eexists; split; [reflexivity|].
  clear Hall. induction lines as [|l ls IH]; constructor; [|done].
  unfold token. simpl. done.
Qed.

(** C2: if some line of the cache splits into fewer than 5 tokens, the
    parse fails with the error naming such a line (the first one) and
    carrying the full raw content; no command list is returned. *)
Theorem parse_malformed_cache (commands_data : string) :
  (exists l, In l (Py.splitlines commands_data) /\ (ntokens l < 5)%nat) ->
  exists l, In l (Py.splitlines commands_data) /\ (ntokens l < 5)%nat /\
    _parse_cached_commands commands_data = inl (ErrMissingTokens l commands_data) /\
    (forall cmds, _parse_cached_commands commands_data <> inr cmds).
Proof.
  intros H. destruct (parse_lines_bad commands_data _ H) as [l [Hin [Hlt Hp]]].
  exists l. unfold _parse_cached_commands. rewrite Hp. by repeat split.
Qed.

(** C10 (as amended): the empty text parses into no commands; appending
    one LF to a non-empty text that does not end in LF leaves the parse
    unchanged, except that a missing-tokens error carries the new full
    text: the same commands, or the same offending line. *)
Theorem parse_trailing_newline :
  _parse_cached_commands EmptyString = inr [] /\
  forall s : string, s <> EmptyString -> ends_in_lf s = false ->
    _parse_cached_commands (String.append s (String Py.LF EmptyString)) =
    match _parse_cached_commands s with
    | inl (ErrMissingTokens l _) =>
        inl (ErrMissingTokens l (String.append s (String Py.LF EmptyString)))
    | r => r
    end.
Proof.
  split; [done|]. intros s Hne Hend. unfold _parse_cached_commands.
  rewrite splitlines_newline by done. apply parse_lines_data.
Qed.

(* ------------------------------------------------------------------ *)
(** ** [_load_cached_data] *)

Lemma execute_toolkit_command_run {W : Type}
    (exec : W -> string -> string -> list string -> W * proc_result)
    (pc cmd : string) (args : list string) (w : W) (tr : list call) :
  execute_toolkit_command exec pc cmd args (w, tr) =
  (((exec w pc cmd args).1, tr ++ [Call pc cmd args]), inr (exec w pc cmd args).2).
Proof. unfold execute_toolkit_command. by destruct (exec w pc cmd args). Qed.

(** Runs the calls of [_load_cached_data] one by one, splitting on what
    each of them returns. *)
Ltac run_load exec :=
  repeat (first [ rewrite execute_toolkit_command_run
                | match goal with
                  | |- context [exec ?w ?pc ?c ?a] =>
                      let E := fresh "E" in
                      destruct (exec w pc c a) as [?w [?out|[?code ?o]]] eqn:E
                  end ]; simpl).

Section Load.
Context {W : Type}.
Variable exec : W -> string -> string -> list string -> W * proc_result.
Variable platform : string.

Abbreviation get_actions pc t :=
  (Call pc "shotgun_get_actions" [_get_cache_name platform t; _get_env_name t]).


(** C3: with a non-empty entity group, a rebuild ([shotgun_cache_actions])
    is invoked exactly when the first [shotgun_get_actions] fails with exit
    code 1 (out of date) or 2 (not found). If that first read succeeds, its
    output is the result and it is the only call; if it fails with any other
    code, the group fails with that error right after this one call. *)
Theorem load_rebuild_iff_stale (pc t : string) (es : list entity) (w : W) :
  es <> [] ->
  let r1 := (exec w pc "shotgun_get_actions"
               [_get_cache_name platform t; _get_env_name t]).2 in
  let run := _load_cached_data exec platform pc t es (w, []) in
  ((exists args, In (Call pc "shotgun_cache_actions" args) run.1.2) <->
     (exists o, r1 = Failed (CPE 1 o) \/ r1 = Failed (CPE 2 o))) /\
  (forall out, r1 = Ok out ->
     run.2 = inr out /\ run.1.2 = [get_actions pc t]) /\
  (forall e, r1 = Failed e -> returncode e <> 1 -> returncode e <> 2 ->
     run.2 = inl (TankError (ErrGetCacheContent e)) /\ run.1.2 = [get_actions pc t]).
Proof.
  intros Hne. cbv zeta.
  unfold _load_cached_data, bind. rewrite execute_toolkit_command_run. simpl.
  destruct (exec w pc "shotgun_get_actions" _) as [w1 [out|[code o]]] eqn:E1; simpl.
  - split; [split|split].
    + intros [args [H|[]]]. discriminate.
    + intros [o [H|H]]; discriminate.
    + by intros ? [= ->].
    + intros ? H. discriminate.
  - unfold ERROR_CODE_CACHE_OUT_OF_DATE, ERROR_CODE_CACHE_NOT_FOUND.
    destruct (Z.eqb_spec code 1) as [->|H1]; [|destruct (Z.eqb_spec code 2) as [->|H2]]; simpl.
    + destruct es as [|first rest]; [done|]. run_load exec.
      all: split; [split; [intros _; exists o; by left | intros _; eexists; right; left; done]
                  | split; [intros ? H; discriminate | intros ? [= <-]; simpl; lia]].
    + destruct es as [|first rest]; [done|]. run_load exec.
      all: split; [split; [intros _; exists o; by right | intros _; eexists; right; left; done]
                  | split; [intros ? H; discriminate | intros ? [= <-]; simpl; lia]].
    + split; [split|split].
      * intros [args [H|[]]]. discriminate.
      * intros [o' [H|H]]; injection H; lia.
      * intros ? H. discriminate.
      * by intros e [= <-].
Qed.

(** C4: when the first read fails with exit code 1 or 2, the second call
    is the rebuild with the new convention (entity type, cache name and the
    first entity's id as a string); the old convention (entity type and
    cache name only) is invoked, as the third call, exactly when the new one
    fails; when both fail the group fails with the old-convention error,
    which carries that call's exit code and output. *)
Theorem load_rebuild_fallback (pc t : string) (first : entity) (rest : list entity)
    (w : W) (e1 : called_process_error) :
  let cache := _get_cache_name platform t in
  let env := _get_env_name t in
  let s1 := exec w pc "shotgun_get_actions" [cache; env] in
  let new_args := [t; cache; Py.str_int first.2] in
  let old_args := [t; cache] in
  let s2 := exec s1.1 pc "shotgun_cache_actions" new_args in
  let s3 := exec s2.1 pc "shotgun_cache_actions" old_args in
  let run := _load_cached_data exec platform pc t (first :: rest) (w, []) in
  s1.2 = Failed e1 -> (returncode e1 = 1 \/ returncode e1 = 2) ->
  nth_error run.1.2 1 = Some (Call pc "shotgun_cache_actions" new_args) /\
  (In (Call pc "shotgun_cache_actions" old_args) run.1.2 <-> exists e2, s2.2 = Failed e2) /\
  (forall e2, s2.2 = Failed e2 ->
     nth_error run.1.2 2 = Some (Call pc "shotgun_cache_actions" old_args)) /\
  (forall e2 e3, s2.2 = Failed e2 -> s3.2 = Failed e3 ->
     run.2 = inl (TankError (ErrUpdateCache e3)) /\ length run.1.2 = 3%nat).
Proof.
  cbv zeta. intros H1 Hcode.
  unfold _load_cached_data, bind. rewrite execute_toolkit_command_run. simpl.
  destruct (exec w pc "shotgun_get_actions" _) as [w1 r1] eqn:E1. simpl in H1 |- *. subst r1.
  destruct e1 as [code o]. simpl in Hcode.
  assert (Hc : negb (Z.eqb code ERROR_CODE_CACHE_OUT_OF_DATE
                     || Z.eqb code ERROR_CODE_CACHE_NOT_FOUND) = false).
  { unfold ERROR_CODE_CACHE_OUT_OF_DATE, ERROR_CODE_CACHE_NOT_FOUND.
    destruct Hcode as [->| ->]; done. }
  cbn [returncode]. rewrite Hc. run_load exec.
  all: split; [done|].
  all: split; [split|split].
  all: try (intros [[=]|[[=]|[[=]|[]]]]; fail).
  all: try (intros [?e [=]]; fail).
  all: try (intros ? ? [=]; fail).
  all: try (intros ? [=]; fail).
  all: try (intros _; eexists; reflexivity).
  all: try (intros ? _; reflexivity).
  all: try (intros _; right; right; left; reflexivity).
  all: try (intros ? ? _ [= <-]; done).
Qed.

End Load.

(* ------------------------------------------------------------------ *)
(** ** [itertools.groupby] *)

Lemma groupby_cons (e : entity) (rest : list entity) :
  exists g gs, groupby (e :: rest) = (fst e, e :: g) :: gs /\
    (g = [] /\ gs = groupby rest \/ groupby rest = (fst e, g) :: gs).
Proof.
  simpl. destruct (groupby rest) as [|[k g] gs] eqn:E.
  - exists [], []. split; [done|]. by left.
  - destruct (String.eqb_spec (fst e) k) as [<-|Hne].
    + exists g, gs. split; [done|]. by right.
    + exists [], ((k, g) :: gs). split; [done|]. by left.
Qed.

(** The groups, put back together, are the input, in order. *)
Lemma groupby_concat (l : list entity) : concat (map snd (groupby l)) = l.
Proof.
  induction l as [|e rest IH]; [done|].
  destruct (groupby_cons e rest) as [g [gs [-> [[-> ->]| Hr]]]]; simpl.
  - by rewrite IH.
  - rewrite Hr in IH. simpl in IH. by rewrite IH.
Qed.

(** Every group is non-empty and made of entities of its key's type. *)
Lemma groupby_groups (l : list entity) :
  Forall (fun gr => gr.2 <> [] /\ Forall (fun y => fst y = gr.1) gr.2) (groupby l).
Proof.
  induction l as [|e rest IH]; [constructor|].
  destruct (groupby_cons e rest) as [g [gs [-> [[-> ->]| Hr]]]].
  - constructor; [split; [done|by constructor]|done].
  - rewrite Hr in IH. inversion IH as [|? ? [_ Hg] Hgs]; subst.
    constructor; [split; [done|by constructor]|done].
Qed.

Lemma groupby_keys (l : list entity) (t : string) :
  In t (map fst (groupby l)) <-> In t (map fst l).
Proof.
  pose proof (groupby_concat l) as Hc. pose proof (groupby_groups l) as Hg.
  split.
  - intros (gr & <- & Hin)%in_map_iff.
    rewrite List.Forall_forall in Hg. destruct (Hg gr Hin) as [Hne Hall].
    destruct (snd gr) as [|y ys] eqn:E; [done|].
    apply in_map_iff. exists y. split; [by inversion Hall|].
    rewrite <- Hc. apply in_concat. exists (y :: ys). split; [|by left].
    rewrite <- E. by apply in_map.
  - intros (y & <- & Hy)%in_map_iff. rewrite <- Hc in Hy.
    apply in_concat in Hy as (ys & Hys & Hy). apply in_map_iff in Hys as (gr & <- & Hgr).
    rewrite List.Forall_forall in Hg. destruct (Hg gr Hgr) as [_ Hall].
    rewrite List.Forall_forall in Hall. rewrite (Hall y Hy). by apply in_map.
Qed.

Lemma contiguous_tail (e : entity) (rest : list entity) :
  contiguous (e :: rest) -> contiguous rest.
Proof.
  intros H l1 l2 l3 x z -> Hxz. apply (H (e :: l1) l2 l3 x z); [done|done].
Qed.

Lemma contiguous_head (e y : entity) (rest : list entity) :
  contiguous (e :: y :: rest) -> In (fst e) (map fst (y :: rest)) -> fst y = fst e.
Proof.
  intros H (z & Hz & Hin)%in_map_iff. destruct Hin as [<-|Hin]; [done|].
  apply in_split in Hin as (l2 & l3 & ->).
  pose proof (H [] (y :: l2) l3 e z eq_refl (eq_sym Hz)) as Hall.
  by inversion Hall.
Qed.

Lemma groupby_unfold (e : entity) (rest : list entity) :
  groupby (e :: rest) =
  match groupby rest with
  | (k, g) :: gs =>
      if String.eqb (fst e) k then (k, e :: g) :: gs
      else (fst e, [e]) :: (k, g) :: gs
  | [] => [(fst e, [e])]
  end.
Proof. reflexivity. Qed.

(** With contiguous runs, each entity type keys exactly one group. *)
Lemma groupby_NoDup (l : list entity) : contiguous l -> NoDup (map fst (groupby l)).
Proof.
  induction l as [|e rest IH]; intros Hc; [constructor|].
  pose proof (IH (contiguous_tail _ _ Hc)) as Hnd.
  destruct (groupby_cons e rest) as [g [gs [Heq [[Hg Hr]| Hr]]]]; rewrite Heq.
  - subst g gs. simpl. constructor; [|done].
    rewrite list_elem_of_In, groupby_keys. intros Hin.
    destruct rest as [|y rest']; [done|].
    pose proof (contiguous_head e y rest' Hc Hin) as Hy.
    destruct (groupby_cons y rest') as [g' [gs' [Hgy _]]].
    revert Heq. rewrite groupby_unfold, Hgy, Hy, String.eqb_refl.
    discriminate.
  - rewrite Hr in Hnd. done.
Qed.

Lemma groupby_length (l : list entity) :
  contiguous l -> length (groupby l) = distinct_types l.
Proof.
  intros Hc. unfold distinct_types.
  rewrite <- (length_map fst (groupby l)), <- (size_list_to_set (C:=gset string));
    [|by apply groupby_NoDup].
  f_equal. apply set_eq. intros t.
  by rewrite !elem_of_list_to_set, !list_elem_of_In, groupby_keys.
Qed.

(* ------------------------------------------------------------------ *)
(** ** [run_noninteractive] *)

Lemma assign_lookup (es : list entity) (c : list command)
    (m : gmap entity (list command)) (e : entity) :
  assign es c m !! e = if bool_decide (e ∈ es) then Some c else m !! e.
Proof.
  unfold assign. revert m. induction es as [|x es IH]; intros m; simpl.
  - done.
  - rewrite IH. destruct (decide (e = x)) as [->|Hne].
    + rewrite lookup_insert_eq. repeat case_bool_decide; set_solver.
    + rewrite lookup_insert_ne by congruence.
      repeat case_bool_decide; set_solver.
Qed.

(** The success steps of [e] and [e'] agree on groups that contain both
    or neither. *)
Lemma last_success_same (e e' : entity) (grs : list group_result) :
  Forall (fun gr : group_result => e ∈ gr.1.2 <-> e' ∈ gr.1.2) grs ->
  last_success e grs = last_success e' grs.
Proof.
  unfold last_success. generalize (@None (list command)) as o.
  induction grs as [|gr grs IH]; intros o Hall; [done|].
  inversion Hall as [|? ? Hgr Hgrs]; subst. simpl. rewrite <- IH by done.
  f_equal. unfold success_step. destruct gr.2; [done|].
  destruct (decide (e ∈ gr.1.2)) as [H|H].
  - rewrite !bool_decide_eq_true_2; [done|by apply Hgr|done].
  - rewrite !bool_decide_eq_false_2; [done| by rewrite <- Hgr|done].
Qed.

Lemma last_success_in (e : entity) (grs : list group_result) (c : list command) :
  last_success e grs = Some c -> exists g, In (g, inr c) grs /\ e ∈ g.2.
Proof.
  unfold last_success.
  assert (Hgen : forall o, fold_left (success_step e) grs o = Some c ->
            o = Some c \/ exists g, In (g, inr c) grs /\ e ∈ g.2).
  { induction grs as [|[g r] grs IH]; intros o H; [by left|].
    simpl in H. apply IH in H as [H|[g' [Hin He]]].
    - unfold success_step in H. simpl in H. destruct r as [|c'].
      + by left.
      + destruct (decide (e ∈ g.2)) as [Hin|Hnin].
        * rewrite bool_decide_eq_true_2 in H by done. injection H as ->.
          right. exists g. split; [by left|done].
        * rewrite bool_decide_eq_false_2 in H by done. by left.
    - right. exists g'. split; [by right|done]. }
  intros H. by destruct (Hgen None H) as [[=]|?].
Qed.

Lemma last_success_none (e : entity) (grs : list group_result) :
  last_success e grs = None <-> forall g c, In (g, inr c) grs -> e ∉ g.2.
Proof.
  assert (Hgen : forall o, fold_left (success_step e) grs o = None <->
            o = None /\ forall g c, In (g, inr c) grs -> e ∉ g.2).
  { induction grs as [|[g r] grs IH]; intros o; simpl.
    - split; [intros ->; split; [done| intros ? ? []] | by intros [-> _]].
    - rewrite IH. unfold success_step. simpl. destruct r as [err|c'].
      + split.
        * intros [-> H]. split; [done|]. intros g' c [[=]|Hin]. by apply (H g' c).
        * intros [-> H]. split; [done|]. intros g' c Hin. apply (H g' c). by right.
      + destruct (decide (e ∈ g.2)) as [Hin|Hnin].
        * rewrite bool_decide_eq_true_2 by done. split; [by intros [? _]|].
          intros [_ H]. exfalso. apply (H g c'); [by left|done].
        * rewrite bool_decide_eq_false_2 by done. split.
          -- intros [-> H]. split; [done|]. intros g' c [[= <- <-]|Hin']; [done|].
             by apply (H g' c).
          -- intros [-> H]. split; [done|]. intros g' c Hin'. apply (H g' c). by right. }
  unfold last_success. rewrite Hgen. split; [by intros [_ H] | intros H; by split].
Qed.

Lemma fold_success_init (e : entity) (grs : list group_result) (o : option (list command)) :
  fold_left (success_step e) grs o =
  match last_success e grs with Some c => Some c | None => o end.
Proof.
  unfold last_success. revert o. induction grs as [|gr grs IH]; intros o; [done|].
  simpl. rewrite (IH (success_step e o gr)), (IH (success_step e None gr)).
  destruct (fold_left (success_step e) grs None); [done|].
  unfold success_step. destruct gr.2; [done|]. by case_bool_decide.
Qed.

Section Run.
Context {W : Type}.
Variable exec : W -> string -> string -> list string -> W * proc_result.
Variable platform : string.

Lemma load_no_index_error (pc t : string) (es : list entity) (s : st) :
  es <> [] -> (_load_cached_data exec platform pc t es s).2 <> inl IndexError.
Proof.
  intros Hne. destruct s as [w tr]. destruct es as [|first rest]; [done|].
  unfold _load_cached_data, bind. run_load exec.
  all: try discriminate.
  all: match goal with |- context [negb ?b] => destruct b end; simpl; run_load exec; discriminate.
Qed.

Lemma fetch_no_index_error (pc t : string) (es : list entity) (s : st) :
  es <> [] ->
  exists s' r, catch_tank (fetch_commands exec platform pc t es) s = (s', inr r).
Proof.
  intros Hne. pose proof (load_no_index_error pc t es s Hne) as H.
  unfold catch_tank, fetch_commands, bind.
  destruct (_load_cached_data exec platform pc t es s) as [s1 [[e|]|content]]; simpl in H.
  - eauto.
  - done.
  - unfold lift_tank. destruct (_parse_cached_commands content); simpl; eauto.
Qed.

Lemma fetch_run_exists (pc : string) (gs : list (string * list entity)) (s : st) :
  Forall (fun gr => gr.2 <> []) gs -> exists rs s', fetch_run exec platform pc gs s rs s'.
Proof.
  revert s. induction gs as [|[t es] gs IH]; intros s Hall.
  - eexists _, _. constructor.
  - inversion Hall as [|? ? Hes Hgs]; subst.
    destruct (fetch_no_index_error pc t es s Hes) as [s1 [r Hr]].
    destruct (IH s1 Hgs) as [rs [s' Hrun]].
    eexists _, _. econstructor; eauto.
Qed.

Lemma fetch_run_length (pc : string) gs s rs s' :
  fetch_run exec platform pc gs s rs s' -> length rs = length gs.
Proof. induction 1; simpl; congruence. Qed.

Lemma run_groups_spec (pc : string) gs s rs s' :
  fetch_run exec platform pc gs s rs s' ->
  forall acc : result, exists m,
    run_groups exec platform pc gs acc s = (s', inr (m, acc.2 ++ failed_log pc (combine gs rs))) /\
    forall e, m !! e = match last_success e (combine gs rs) with
                       | Some c => Some c
                       | None => acc.1 !! e
                       end.
Proof.
  induction 1 as [s|t es gs s s1 s2 r rs Hfetch Hrun IH]; intros [m0 l0].
  - exists m0. simpl. by rewrite app_nil_r.
  - simpl. unfold bind. rewrite Hfetch.
    destruct r as [err|c].
    + destruct (IH (m0, l0 ++ [(pc, t, err)])) as [m [Hm Hlook]].
      exists m. rewrite Hm. simpl. rewrite <- app_assoc. split; [done|].
      intros e. rewrite Hlook. unfold last_success. simpl.
      rewrite (fold_success_init e _ (success_step e None _)).
      unfold last_success. by destruct (fold_left (success_step e) (combine gs rs) None).
    + destruct (IH (assign es c m0, l0)) as [m [Hm Hlook]].
      exists m. rewrite Hm. simpl. split; [done|].
      intros e. rewrite Hlook. unfold last_success at 2. simpl.
      rewrite (fold_success_init e _ (success_step e None _)).
      unfold success_step. simpl. rewrite assign_lookup.
      destruct (last_success e (combine gs rs)); [done|]. by case_bool_decide.
Qed.

End Run.

Lemma map_fst_combine {A B} (xs : list A) (ys : list B) :
  length xs = length ys -> map fst (combine xs ys) = xs.
Proof.
  revert ys. induction xs as [|x xs IH]; intros [|y ys] H; simpl in *; try done.
  f_equal. apply IH. lia.
Qed.

Lemma in_combine_exists {A B} (xs : list A) (ys : list B) (x : A) :
  length xs = length ys -> In x xs -> exists y, In (x, y) (combine xs ys).
Proof.
  revert ys. induction xs as [|x' xs IH]; intros [|y ys] H Hin; simpl in *; try done.
  destruct Hin as [<-|Hin].
  - exists y. by left.
  - destruct (IH ys ltac:(lia) Hin) as [y' Hy']. exists y'. by right.
Qed.

Lemma failed_log_nil (pc : string) (grs : list group_result) g r :
  failed_log pc grs = [] -> In (g, r) grs -> exists c, r = inr c.
Proof.
  induction grs as [|[g' r'] grs IH]; intros Hf Hin; [done|].
  simpl in Hf. destruct r' as [err|c']; [done|]. simpl in Hf.
  destruct Hin as [[= <- <-]|Hin]; [by exists c'|by apply IH].
Qed.

Lemma NoDup_map_fst_eq {A B} (l : list (A * B)) a b :
  NoDup (map fst l) -> In a l -> In b l -> fst a = fst b -> a = b.
Proof.
  induction l as [|x l IH]; intros Hnd Ha Hb Hab; [done|].
  simpl in Hnd. apply NoDup_cons in Hnd as [Hx Hnd].
  destruct Ha as [<-|Ha], Hb as [<-|Hb]; try done.
  - exfalso. apply Hx. rewrite Hab. apply list_elem_of_In. by apply in_map.
  - exfalso. apply Hx. rewrite <- Hab. apply list_elem_of_In. by apply in_map.
  - by apply IH.
Qed.

(** The group of an entity, when groups are keyed by distinct types. *)
Lemma groupby_member (l : list entity) (e : entity) :
  In e l -> exists gr, In gr (groupby l) /\ In e gr.2 /\ gr.1 = fst e.
Proof.
  intros Hin. rewrite <- groupby_concat in Hin.
  apply in_concat in Hin as (ys & Hys & He). apply in_map_iff in Hys as (gr & <- & Hgr).
  exists gr. split; [done|]. split; [done|].
  pose proof (groupby_groups l) as Hg. rewrite List.Forall_forall in Hg.
  destruct (Hg gr Hgr) as [_ Hall]. rewrite List.Forall_forall in Hall. by rewrite (Hall e He).
Qed.

Lemma groupby_member_key (l : list entity) (gr : string * list entity) (e : entity) :
  In gr (groupby l) -> In e gr.2 -> gr.1 = fst e.
Proof.
  intros Hgr He. pose proof (groupby_groups l) as Hg. rewrite List.Forall_forall in Hg.
  destruct (Hg gr Hgr) as [_ Hall]. rewrite List.Forall_forall in Hall. by rewrite (Hall e He).
Qed.

Lemma last_success_only (e : entity) (grs : list group_result) g c :
  NoDup (map (fun gr : group_result => gr.1.1) grs) ->
  In (g, inr c) grs -> e ∈ g.2 ->
  (forall g' r', In (g', r') grs -> e ∈ g'.2 -> g'.1 = g.1) ->
  last_success e grs = Some c.
Proof.
  induction grs as [|x grs IH]; intros Hnd Hin He Honly; [done|].
  simpl in Hnd. apply NoDup_cons in Hnd as [Hx Hnd].
  unfold last_success. simpl. rewrite fold_success_init.
  destruct Hin as [Hxg|Hin].
  - subst x. assert (Hnone : last_success e grs = None).
    { apply last_success_none. intros g' c' Hin' He'. apply Hx. simpl.
      rewrite <- (Honly g' (inr c') ltac:(by right) He'). apply list_elem_of_In.
      by apply (in_map (fun gr : group_result => gr.1.1) grs (g', inr c')). }
    rewrite Hnone. unfold success_step. simpl. by case_bool_decide.
  - rewrite IH; [done|done|done|done|]. intros g' r' Hin'. apply (Honly g' r'). by right.
Qed.

Section Properties.
Context {W : Type}.
Variable exec : W -> string -> string -> list string -> W * proc_result.
Variable platform : string.

Lemma run_noninteractive_spec (pc : string) (entities : list entity) (s : st) :
  exists rs s', fetch_run exec platform pc (groupby entities) s rs s' /\
    exists m, run_noninteractive exec platform pc entities s =
              (s', inr (m, failed_log pc (combine (groupby entities) rs))) /\
    forall e, m !! e = last_success e (combine (groupby entities) rs).
Proof.
  destruct (fetch_run_exists exec platform pc (groupby entities) s) as [rs [s' Hrun]].
  { eapply Forall_impl; [apply groupby_groups|]. by intros gr [? _]. }
  exists rs, s'. split; [done|].
  destruct (run_groups_spec exec platform pc _ _ _ _ Hrun (∅, [])) as [m [Hm Hlook]].
  exists m. split; [done|]. intros e. rewrite Hlook.
  by destruct (last_success e _).
Qed.

(** C5 (as amended): every entity-type group is processed, each from the
    state the previous ones left, whatever they did: the action returns
    normally, logs one entry per failed group (path, type, error), and an
    entity is a key of the result exactly when a group containing it
    succeeded, with the commands of the last such group. An entity whose
    groups all failed is absent. *)
Theorem run_noninteractive_isolates_failures (pc : string) (entities : list entity) (w : W) :
  exists rs s', fetch_run exec platform pc (groupby entities) (w, []) rs s' /\
    length rs = length (groupby entities) /\
    exists m, run_noninteractive exec platform pc entities (w, []) =
              (s', inr (m, failed_log pc (combine (groupby entities) rs))) /\
    forall e, m !! e = last_success e (combine (groupby entities) rs) /\
      (m !! e = None <->
       forall g c, In (g, inr c) (combine (groupby entities) rs) -> e ∉ g.2).
Proof.
  destruct (run_noninteractive_spec pc entities (w, [])) as (rs & s' & Hrun & m & Hm & Hlook).
  exists rs, s'. split; [done|]. split; [by eapply fetch_run_length|].
  exists m. split; [done|]. intros e. rewrite Hlook. split; [done|].
  apply last_success_none.
Qed.

(** C6 (as amended): when the entities of each type are contiguous and no
    group fails, the groups are the input cut into [K] runs, one per
    entity type, in order; there is one command list per type ([K] of
    them), assigned to every entity of that type, and the result holds no
    other list. So the result has at most [K] distinct lists by content:
    two types whose caches parse to equal lists share one. *)
Theorem run_noninteractive_contiguous_types (pc : string) (entities : list entity) (w : W)
    (m : gmap entity (list command)) (s' : st) :
  contiguous entities ->
  run_noninteractive exec platform pc entities (w, []) = (s', inr (m, [])) ->
  concat (map snd (groupby entities)) = entities /\
  Forall (fun gr => Forall (fun y => fst y = gr.1) gr.2) (groupby entities) /\
  length (groupby entities) = distinct_types entities /\
  exists cs : list (string * list command),
    map fst cs = map fst (groupby entities) /\
    length cs = distinct_types entities /\
    (forall e, In e entities -> exists c, In (fst e, c) cs /\ m !! e = Some c) /\
    (forall e c, m !! e = Some c -> exists t, In (t, c) cs).
Proof.
  intros Hc Hrun.
  destruct (run_noninteractive_spec pc entities (w, [])) as (rs & s'' & Hfr & m' & Hm & Hlook).
  rewrite Hm in Hrun. injection Hrun as <- <- Hlog.
  pose proof (fetch_run_length _ _ _ _ _ _ _ Hfr) as Hlen.
  pose proof (groupby_NoDup _ Hc) as Hnd.
  set (gs := groupby entities) in *.
  set (grs := combine gs rs) in *.
  split; [apply groupby_concat|]. split.
  { eapply Forall_impl; [apply groupby_groups|]. by intros gr [_ ?]. }
  split; [by apply groupby_length|].
  exists (map (fun gr : group_result =>
                 (gr.1.1, match gr.2 with inr c => c | inl _ => [] end)) grs).
  assert (Hkeys : map fst (map (fun gr : group_result =>
                 (gr.1.1, match gr.2 with inr c => c | inl _ => [] end)) grs) = map fst gs).
  { rewrite map_map. simpl. subst grs.
    transitivity (map fst (map fst (combine gs rs))); [by rewrite map_map|].
    by rewrite map_fst_combine by lia. }
  split; [done|]. split.
  { rewrite <- (length_map fst), Hkeys, length_map. by apply groupby_length. }
  split.
  - intros e He. destruct (groupby_member _ _ He) as (gr & Hgr & Hegr & Hkey).
    destruct (in_combine_exists gs rs gr ltac:(lia) Hgr) as [r Hr].
    destruct (failed_log_nil pc grs gr r Hlog Hr) as [c ->].
    exists c. split.
    + rewrite <- Hkey. apply (in_map (fun gr : group_result =>
                 (gr.1.1, match gr.2 with inr c => c | inl _ => [] end)) grs (gr, inr c)). done.
    + rewrite Hlook. apply (last_success_only e grs gr c).
      * subst grs. rewrite <- (map_map fst fst), (map_fst_combine gs rs) by lia. done.
      * done.
      * by apply list_elem_of_In.
      * intros g' r' Hin' He'. apply in_combine_l in Hin'.
        rewrite (groupby_member_key _ _ e Hin') by (by apply list_elem_of_In).
        by rewrite Hkey.
  - intros e c Hec. rewrite Hlook in Hec.
    destruct (last_success_in e grs c Hec) as [g [Hin _]].
    exists g.1. apply (in_map (fun gr : group_result =>
                 (gr.1.1, match gr.2 with inr c => c | inl _ => [] end)) grs (g, inr c)). done.
Qed.

(** C7 (as amended): when the entities of each type are contiguous, all
    entities of one type get the same entry in the result (the same command
    list, or all absent). Scattered entities of one type form separate
    groups, each fetched and parsed on its own. *)
Theorem run_noninteractive_same_type_contiguous (pc : string) (entities : list entity)
    (w : W) (m : gmap entity (list command)) (log : list log_entry) (s' : st)
    (e1 e2 : entity) :
  contiguous entities ->
  run_noninteractive exec platform pc entities (w, []) = (s', inr (m, log)) ->
  In e1 entities -> In e2 entities -> fst e1 = fst e2 ->
  m !! e1 = m !! e2.
Proof.
  intros Hc Hrun He1 He2 Ht.
  destruct (run_noninteractive_spec pc entities (w, [])) as (rs & s'' & Hfr & m' & Hm & Hlook).
  rewrite Hm in Hrun. injection Hrun as <- <- _.
  rewrite !Hlook. apply last_success_same.
  pose proof (groupby_NoDup _ Hc) as Hnd.
  destruct (groupby_member _ _ He1) as (g1 & Hg1 & Heg1 & Hk1).
  destruct (groupby_member _ _ He2) as (g2 & Hg2 & Heg2 & Hk2).
  assert (Hg12 : g1 = g2) by (apply (NoDup_map_fst_eq _ _ _ Hnd Hg1 Hg2); congruence).
  subst g2.
  apply List.Forall_forall. intros [g r] Hin. apply in_combine_l in Hin. simpl.
  rewrite !list_elem_of_In. split; intros He.
  - assert (g = g1) as -> by (apply (NoDup_map_fst_eq _ _ _ Hnd Hin Hg1);
      rewrite (groupby_member_key _ _ _ Hin He); congruence). done.
  - assert (g = g1) as -> by (apply (NoDup_map_fst_eq _ _ _ Hnd Hin Hg1);
      rewrite (groupby_member_key _ _ _ Hin He); congruence). done.
Qed.

End Properties.

(* ------------------------------------------------------------------ *)
(** ** [_get_cache_name], [_get_env_name] *)

Lemma lower_append (a b : string) :
  Py.lower (String.append a b) = String.append (Py.lower a) (Py.lower b).
Proof. induction a as [|c a IH]; [done|]. rewrite append_cons. simpl. by rewrite IH. Qed.

Abbreviation cache_text P t :=
  (String.append "shotgun_" (String.append P (String.append "_" (String.append t "_detailed.txt")))).

(** C8: the cache file name is ["shotgun_<P>_<t>_detailed.txt"]
    lower-cased, with [P] = ["mac"] for ["darwin"], ["windows"] for
    ["win32"], ["linux"] for any platform starting with ["linux"], and the
    platform itself otherwise; the environment file name is
    ["shotgun_<t>.yml"] lower-cased. *)
Theorem cache_and_env_names (p t : string) :
  (p = "darwin"%string -> _get_cache_name p t = Py.lower (cache_text "mac"%string t)) /\
  (p = "win32"%string -> _get_cache_name p t = Py.lower (cache_text "windows"%string t)) /\
  (Py.startswith p "linux" = true -> _get_cache_name p t = Py.lower (cache_text "linux"%string t)) /\
  (p <> "darwin"%string -> p <> "win32"%string -> Py.startswith p "linux" = false ->
     _get_cache_name p t = Py.lower (cache_text p t)) /\
  _get_env_name t = Py.lower (String.append "shotgun_" (String.append t ".yml")).
Proof.
  unfold _get_cache_name. split; [|split; [|split; [|split]]].
  - by intros ->.
  - by intros ->.
  - intros Hl.
    destruct (String.eqb_spec p "darwin") as [->|_]; [discriminate|].
    destruct (String.eqb_spec p "win32") as [->|_]; [discriminate|].
    by rewrite Hl.
  - intros H1 H2 Hl.
    rewrite (proj2 (String.eqb_neq _ _) H1), (proj2 (String.eqb_neq _ _) H2), Hl. done.
  - unfold _get_env_name. rewrite !lower_append. done.
Qed.

(* ------------------------------------------------------------------ *)
(** ** Contiguity check *)

Lemma contiguous_cons (e : entity) (rest : list entity) :
  contiguous rest ->
  (match rest with y :: _ => fst y = fst e | [] => True end \/ ~ In (fst e) (map fst rest)) ->
  contiguous (e :: rest).
Proof.
  intros Hc Hside l1 l2 l3 x z Heq Hxz.
  destruct l1 as [|e' l1]; simpl in Heq; injection Heq as <- Hrest.
  - subst rest. destruct Hside as [Hy|Hnin].
    + destruct l2 as [|y l2]; [constructor|]. simpl in Hy.
      constructor; [done|].
      pose proof (Hc [] l2 l3 y z eq_refl ltac:(congruence)) as Hall.
      eapply Forall_impl; [exact Hall|]. intros a Ha. simpl in Ha. congruence.
    + exfalso. apply Hnin. rewrite Hxz. apply in_map. apply in_app_iff. right. by left.
  - subst rest. by apply (Hc l1 l2 l3 x z).
Qed.

Lemma contiguousb_sound (l : list entity) : contiguousb l = true -> contiguous l.
Proof.
  induction l as [|e rest IH]; simpl.
  - intros _ l1 l2 l3 x z Heq. by destruct l1.
  - intros [Hr Hside]%andb_true_iff. apply contiguous_cons; [by apply IH|].
    apply orb_true_iff in Hside as [H|H].
    + left. destruct rest as [|y rest']; [done|]. by apply String.eqb_eq.
    + right. intros Hin. apply negb_true_iff in H.
      assert (existsb (String.eqb (fst e)) (map fst rest) = true) as Hex.
      { apply existsb_exists. exists (fst e). split; [done|]. apply String.eqb_refl. }
      congruence.
Qed.

(* ------------------------------------------------------------------ *)
(** ** Further properties of the parser, the loader, the driver and the hook *)

Lemma splitlines_go_app_lf (n : nat) (a b cur : string) :
  (String.length a <= n)%nat -> String.append cur a <> EmptyString -> ends_in_lf a = false ->
  Py.splitlines_go cur (String.append a (String Py.LF b)) =
  Py.splitlines_go cur a ++ Py.splitlines_go EmptyString b.
Proof.
  revert a cur. induction n as [|n IH]; intros a cur Hlen Hne Hend.
  { destruct a; simpl in Hlen; [|lia].
    rewrite append_empty_r in Hne. simpl.
    destruct (String.eqb_spec cur EmptyString); done. }
  destruct a as [|c rest].
  { rewrite append_empty_r in Hne. simpl.
    destruct (String.eqb_spec cur EmptyString); done. }
  rewrite append_cons. rewrite ends_in_lf_cons in Hend. simpl in Hlen. simpl.
  destruct (Ascii.eqb c Py.CR) eqn:HCR.
  - destruct rest as [|c' r].
    + done.
    + rewrite append_cons. destruct (Ascii.eqb c' Py.LF) eqn:HLF.
      * destruct r as [|c'' r'].
        -- rewrite ends_in_lf_cons in Hend. by rewrite HLF in Hend.
        -- rewrite ends_in_lf_cons in Hend. cbn [app]. f_equal. apply IH; [simpl in *; lia|discriminate|done].
      * cbn [app]. f_equal. rewrite <- append_cons. apply IH; [simpl in *; lia|discriminate|done].
  - destruct (Ascii.eqb c Py.LF) eqn:HLF.
    + destruct rest as [|c' r]; [cbv beta iota in Hend; discriminate|].
      cbn [app]. f_equal. apply IH; [simpl in *; lia|discriminate|done].
    + apply IH; [lia| |].
      * unfold Py.snoc. rewrite append_assoc. apply append_nonempty_r. discriminate.
      * destruct rest; done.
Qed.

Lemma parse_lines_app (d : string) (l1 l2 : list string) :
  parse_lines d (l1 ++ l2) =
  match parse_lines d l1 with
  | inl e => inl e
  | inr c1 => match parse_lines d l2 with
              | inl e => inl e
              | inr c2 => inr (c1 ++ c2)
              end
  end.
Proof.
  induction l1 as [|l l1 IH]; simpl.
  - by destruct (parse_lines d l2).
  - destruct (length (Py.split l Py.DOLLAR) <? 5)%nat; [done|].
    rewrite IH. destruct (parse_lines d l1); [done|].
    by destruct (parse_lines d l2).
Qed.

(** Two cache texts joined by one LF, the first non-empty and not
    ending in LF: the commands of the first followed by those of the
    second, or the first missing-tokens error met (in the first text, then
    in the second), reported with the joined text. *)
Theorem parse_cached_commands_app (a b : string) :
  a <> EmptyString -> ends_in_lf a = false ->
  _parse_cached_commands (String.append a (String Py.LF b)) =
  match _parse_cached_commands a with
  | inl (ErrMissingTokens l _) =>
      inl (ErrMissingTokens l (String.append a (String Py.LF b)))
  | inl e => inl e
  | inr ca =>
      match _parse_cached_commands b with
      | inl (ErrMissingTokens l _) =>
          inl (ErrMissingTokens l (String.append a (String Py.LF b)))
      | inl e => inl e
      | inr cb => inr (ca ++ cb)
      end
  end.
Proof.
  intros Hne Hend. unfold _parse_cached_commands, Py.splitlines.
  rewrite (splitlines_go_app_lf (String.length a)) by done.
  rewrite parse_lines_app.
  rewrite (parse_lines_data _ a (Py.splitlines_go EmptyString a)).
  rewrite (parse_lines_data _ b (Py.splitlines_go EmptyString b)).
  destruct (parse_lines a _) as [[]|ca]; try done.
  by destruct (parse_lines b _) as [[]|cb].
Qed.

Lemma splitlines_go_prefix (cur l s : string) :
  has_linebreak l = false ->
  Py.splitlines_go cur (String.append l s) = Py.splitlines_go (String.append cur l) s.
Proof.
  revert cur. induction l as [|c l IH]; intros cur Hl.
  - by rewrite append_empty_r.
  - rewrite append_cons. simpl in Hl |- *.
    apply orb_false_iff in Hl as [Hl Hrest]. apply orb_false_iff in Hl as [HLF HCR].
    rewrite HCR, HLF, IH by done. unfold Py.snoc. by rewrite append_assoc.
Qed.

Lemma splitlines_go_LF (cur s : string) :
  Py.splitlines_go cur (String Py.LF s) = cur :: Py.splitlines_go EmptyString s.
Proof. reflexivity. Qed.

Lemma splitlines_go_CRLF (cur s : string) :
  Py.splitlines_go cur (String Py.CR (String Py.LF s)) = cur :: Py.splitlines_go EmptyString s.
Proof. reflexivity. Qed.

Lemma splitlines_go_CR (cur : string) (c : ascii) (r : string) :
  Ascii.eqb c Py.LF = false ->
  Py.splitlines_go cur (String Py.CR (String c r)) = cur :: Py.splitlines_go EmptyString (String c r).
Proof. intros H. simpl. by rewrite H. Qed.

Lemma splitlines_join_lines_with (sep : string) (lines : list string) :
  sep = sep_LF \/ sep = sep_CR \/ sep = sep_CRLF ->
  Forall (fun l => has_linebreak l = false /\ l <> EmptyString) lines ->
  Py.splitlines (join_lines_with sep lines) = lines.
Proof.
  intros Hsep. unfold Py.splitlines. induction lines as [|l ls IH]; intros Hall; [done|].
  inversion Hall as [|? ? [Hl Hne] Hls]; subst.
  destruct ls as [|l' ls'].
  - simpl. by apply splitlines_go_last.
  - change (join_lines_with sep (l :: l' :: ls')) with
      (String.append l (String.append sep (join_lines_with sep (l' :: ls')))).
    rewrite splitlines_go_prefix by done. rewrite append_nil_l.
    inversion Hls as [|? ? [Hl' Hne'] _]; subst.
    assert (Hfirst : exists c r, join_lines_with sep (l' :: ls') = String c r /\
                     Ascii.eqb c Py.LF = false /\ Ascii.eqb c Py.CR = false).
    { destruct l' as [|c r]; [done|]. simpl in Hl'.
      apply orb_false_iff in Hl' as [Hl' _]. apply orb_false_iff in Hl' as [HLF HCR].
      exists c. destruct ls'; simpl; eexists; split; [reflexivity|done|reflexivity|done]. }
    destruct Hfirst as (c & r & Hj & HLF & HCR).
    rewrite Hj in IH |- *.
    destruct Hsep as [->|[->| ->]]; rewrite ?append_cons, ?append_nil_l.
    + rewrite splitlines_go_LF. f_equal. by apply IH.
    + rewrite splitlines_go_CR by done. f_equal. by apply IH.
    + rewrite splitlines_go_CRLF. f_equal. by apply IH.
Qed.

(** The same non-empty lines joined by LF, CR or CR LF parse the same:
    the same commands, or the same offending line. *)
Theorem parse_cached_commands_line_endings (lines : list string) (sep : string) :
  sep = sep_LF \/ sep = sep_CR \/ sep = sep_CRLF ->
  Forall (fun l => has_linebreak l = false /\ l <> EmptyString) lines ->
  _parse_cached_commands (join_lines_with sep lines) =
  match _parse_cached_commands (join_lines_with sep_LF lines) with
  | inl (ErrMissingTokens l _) => inl (ErrMissingTokens l (join_lines_with sep lines))
  | r => r
  end.
Proof.
  intros Hsep Hall. unfold _parse_cached_commands.
  rewrite !splitlines_join_lines_with by (auto || done).
  apply parse_lines_data.
Qed.

Lemma lower_char_idem (c : ascii) : Py.lower_char (Py.lower_char c) = Py.lower_char c.
Proof. destruct c as [[] [] [] [] [] [] [] []]; vm_compute; reflexivity. Qed.

Lemma lower_idem (s : string) : Py.lower (Py.lower s) = Py.lower s.
Proof. induction s as [|c s IH]; [done|]. simpl. by rewrite lower_char_idem, IH. Qed.

(** The cache and environment file names are lower-case and do not
    depend on the case of the entity type: ["Shot"] and ["shot"] share
    them. *)
Theorem cache_env_names_lowercase (p t : string) :
  _get_cache_name p (Py.lower t) = _get_cache_name p t /\
  _get_env_name (Py.lower t) = _get_env_name t /\
  Py.lower (_get_cache_name p t) = _get_cache_name p t /\
  Py.lower (_get_env_name t) = _get_env_name t.
Proof.
  unfold _get_cache_name, _get_env_name.
  rewrite !lower_append, !lower_idem. repeat split; reflexivity.
Qed.

Section LoadMore.
Context {W : Type}.
Variable exec : W -> string -> string -> list string -> W * proc_result.
Variable platform : string.

(** [_load_cached_data] makes 1, 3 or 4 calls, all to the given
    configuration, starting with a [shotgun_get_actions] read; when it
    returns content, its last call is such a read. *)
Theorem load_cached_data_calls (pc t : string) (es : list entity) (w : W) :
  let get := Call pc "shotgun_get_actions" [_get_cache_name platform t; _get_env_name t] in
  let run := _load_cached_data exec platform pc t es (w, []) in
  (length run.1.2 = 1 \/ length run.1.2 = 3 \/ length run.1.2 = 4)%nat /\
  Forall (fun c => call_pc c = pc) run.1.2 /\
  head run.1.2 = Some get /\
  (forall out, run.2 = inr out -> last run.1.2 = Some get).
Proof.
  cbv zeta. unfold _load_cached_data, bind. run_load exec.
  all: try (match goal with |- context [negb ?b] => destruct b end; simpl;
            [destruct es as [|first rest]; simpl; run_load exec|]).

  all: split; [simpl; lia|]; split; [repeat constructor|]; split; [reflexivity|].
  all: intros ? H; try discriminate H; reflexivity.
Qed.


(** With no entity and a first read failing with code 1 or 2,
    [entities[0]] raises [IndexError], not a [TankError], after one call. *)
Theorem load_cached_data_no_entities (pc t : string) (w : W) (e : called_process_error) :
  let s1 := exec w pc "shotgun_get_actions" [_get_cache_name platform t; _get_env_name t] in
  s1.2 = Failed e -> (returncode e = 1 \/ returncode e = 2) ->
  _load_cached_data exec platform pc t [] (w, []) =
    ((s1.1, [Call pc "shotgun_get_actions" [_get_cache_name platform t; _get_env_name t]]),
     inl IndexError).
Proof.
  cbv zeta. intros H1 Hcode.
  unfold _load_cached_data, bind. rewrite execute_toolkit_command_run. simpl.
  destruct (exec w pc "shotgun_get_actions" _) as [w1 r1]. simpl in H1 |- *. subst r1.
  destruct e as [code o]. simpl in Hcode.
  unfold ERROR_CODE_CACHE_OUT_OF_DATE, ERROR_CODE_CACHE_NOT_FOUND. cbn [returncode].
  by destruct Hcode as [->| ->].
Qed.

(** Once a rebuild succeeds (new convention, or old one after the new
    failed), the cache is read once more and the load returns what that
    read gives: its output, or [ErrUpdatedCacheContent] with its error. *)
Theorem load_cached_data_after_rebuild (pc t : string) (first : entity) (rest : list entity)
    (w : W) (e1 : called_process_error) :
  let cache := _get_cache_name platform t in
  let env := _get_env_name t in
  let get := Call pc "shotgun_get_actions" [cache; env] in
  let new_args := [t; cache; Py.str_int first.2] in
  let old_args := [t; cache] in
  let s1 := exec w pc "shotgun_get_actions" [cache; env] in
  let s2 := exec s1.1 pc "shotgun_cache_actions" new_args in
  let s3 := exec s2.1 pc "shotgun_cache_actions" old_args in
  let run := _load_cached_data exec platform pc t (first :: rest) (w, []) in
  s1.2 = Failed e1 -> (returncode e1 = 1 \/ returncode e1 = 2) ->
  (forall o2, s2.2 = Ok o2 ->
     let s4 := exec s2.1 pc "shotgun_get_actions" [cache; env] in
     run = ((s4.1, [get; Call pc "shotgun_cache_actions" new_args; get]), reread s4.2)) /\
  (forall e2 o3, s2.2 = Failed e2 -> s3.2 = Ok o3 ->
     let s4 := exec s3.1 pc "shotgun_get_actions" [cache; env] in
     run = ((s4.1, [get; Call pc "shotgun_cache_actions" new_args;
                    Call pc "shotgun_cache_actions" old_args; get]), reread s4.2)).
Proof.
  cbv zeta. intros H1 Hcode.
  unfold _load_cached_data, bind. rewrite execute_toolkit_command_run. simpl.
  destruct (exec w pc "shotgun_get_actions" _) as [w1 r1]. simpl in H1 |- *. subst r1.
  destruct e1 as [code o]. simpl in Hcode.
  assert (Hc : negb (Z.eqb code ERROR_CODE_CACHE_OUT_OF_DATE
                     || Z.eqb code ERROR_CODE_CACHE_NOT_FOUND) = false).
  { unfold ERROR_CODE_CACHE_OUT_OF_DATE, ERROR_CODE_CACHE_NOT_FOUND.
    destruct Hcode as [->| ->]; done. }
  cbn [returncode]. rewrite Hc. rewrite execute_toolkit_command_run. simpl.
  destruct (exec w1 pc "shotgun_cache_actions" _) as [w2 r2]. simpl. split.
  - intros o2 ->. simpl. unfold ret.
    destruct (exec w2 pc "shotgun_get_actions" _) as [w4 [out|e4]]; reflexivity.
  - intros e2 o3 -> H3. simpl. rewrite ?execute_toolkit_command_run. simpl.
    destruct (exec w2 pc "shotgun_cache_actions" _) as [w3 r3]. simpl in H3 |- *. subst r3.
    simpl. unfold ret.
    destruct (exec w3 pc "shotgun_get_actions" _) as [w4 [out|e4]]; reflexivity.
Qed.

End LoadMore.

(** [itertools.groupby] on the entity type cuts the list into non-empty
    runs of one type, in order, and two consecutive runs have different
    types. *)
Theorem groupby_maximal_runs (l : list entity) :
  concat (map snd (groupby l)) = l /\
  Forall (fun gr => gr.2 <> [] /\ Forall (fun y => fst y = gr.1) gr.2) (groupby l) /\
  forall i gr1 gr2, nth_error (groupby l) i = Some gr1 ->
    nth_error (groupby l) (S i) = Some gr2 -> gr1.1 <> gr2.1.
Proof.
  split; [apply groupby_concat|]. split; [apply groupby_groups|].
  induction l as [|e rest IH]; intros i gr1 gr2 H1 H2.
  - by destruct i.
  - rewrite groupby_unfold in H1, H2.
    destruct (groupby rest) as [|[k g] gs] eqn:E.
    + destruct i as [|[|i]]; simpl in *; congruence.
    + destruct (String.eqb_spec (fst e) k) as [Hek|Hek].
      * destruct i as [|i]; simpl in H1, H2.
        -- injection H1 as <-. apply (IH 0%nat (k, g) gr2); done.
        -- apply (IH (S i) gr1 gr2); done.
      * destruct i as [|i]; simpl in H1, H2.
        -- injection H1 as <-. injection H2 as <-. done.
        -- apply (IH i gr1 gr2); done.
Qed.

Section RunMore.
Context {W : Type}.
Variable exec : W -> string -> string -> list string -> W * proc_result.
Variable platform : string.

Lemma load_trace (pc t : string) (es : list entity) (w : W) (tr : list call) :
  exists calls, (_load_cached_data exec platform pc t es (w, tr)).1.2 = tr ++ calls /\
    head calls = Some (Call pc "shotgun_get_actions"
                         [_get_cache_name platform t; _get_env_name t]) /\
    (1 <= length calls <= 4)%nat /\ Forall (fun c => call_pc c = pc) calls.
Proof.
  unfold _load_cached_data, bind. run_load exec.
  all: try (match goal with |- context [negb ?b] => destruct b end; simpl;
            [destruct es as [|first rest]; simpl; run_load exec|]).
  all: eexists; split; [rewrite <- ?app_assoc; reflexivity|].
  all: split; [reflexivity|].
  all: split; [simpl; lia|repeat constructor].
Qed.

Lemma fetch_state (pc t : string) (es : list entity) (s : st) :
  (catch_tank (fetch_commands exec platform pc t es) s).1 =
  (_load_cached_data exec platform pc t es s).1.
Proof.
  unfold catch_tank, fetch_commands, bind.
  destruct (_load_cached_data exec platform pc t es s) as [s1 [[e|]|content]]; [done|done|].
  unfold lift_tank. by destruct (_parse_cached_commands content).
Qed.

Lemma fetch_run_trace (pc : string) gs s rs s' :
  fetch_run exec platform pc gs s rs s' ->
  exists per, s'.2 = s.2 ++ concat per /\
    Forall2 (fun gr calls =>
        head calls = Some (Call pc "shotgun_get_actions"
                             [_get_cache_name platform gr.1; _get_env_name gr.1]) /\
        (1 <= length calls <= 4)%nat /\ Forall (fun c => call_pc c = pc) calls) gs per.
Proof.
  induction 1 as [s|t es gs s s1 s2 r rs Hfetch Hrun IH].
  - exists []. rewrite app_nil_r. split; [done|constructor].
  - destruct s as [w tr].
    pose proof (fetch_state pc t es (w, tr)) as Hs. rewrite Hfetch in Hs. simpl in Hs.
    destruct (load_trace pc t es w tr) as (c1 & Hc1 & Hh1 & Hl1 & Hp1).
    destruct IH as (per & Hc2 & Hper).
    exists (c1 :: per). simpl. rewrite Hc2, Hs, Hc1, app_assoc. split; [done|].
    by constructor.
Qed.

(** [run_noninteractive] makes its calls group by group: for each group
    of [itertools.groupby], between one and four calls to the given
    configuration, the first one the [shotgun_get_actions] read for the
    group's entity type; there are at most as many groups as entities. *)
Theorem run_noninteractive_calls (pc : string) (entities : list entity) (w : W) :
  exists per,
    (run_noninteractive exec platform pc entities (w, [])).1.2 = concat per /\
    Forall2 (fun gr calls =>
        head calls = Some (Call pc "shotgun_get_actions"
                             [_get_cache_name platform gr.1; _get_env_name gr.1]) /\
        (1 <= length calls <= 4)%nat /\ Forall (fun c => call_pc c = pc) calls)
      (groupby entities) per /\
    (length (groupby entities) <= length entities)%nat.
Proof.
  destruct (run_noninteractive_spec exec platform pc entities (w, [])) as (rs & s' & Hfr & m & Hm & _).
  rewrite Hm. simpl.
  destruct (fetch_run_trace pc _ _ _ _ Hfr) as (per & Hc & Hper). simpl in Hc.
  exists per. split; [done|]. split; [done|].
  rewrite <- (groupby_concat entities) at 2.
  pose proof (groupby_groups entities) as Hg. clear - Hg.
  induction (groupby entities) as [|gr gs IH]; [simpl; lia|].
  inversion Hg as [|? ? [Hne _] Hgs]; subst. simpl. rewrite length_app.
  destruct gr.2; [done|]. simpl. specialize (IH Hgs). lia.
Qed.

(** The keys of the result are input entities; when nothing was logged,
    every input entity is a key. *)
Theorem run_noninteractive_keys (pc : string) (entities : list entity) (w : W)
    (m : gmap entity (list command)) (log : list log_entry) (s' : st) :
  run_noninteractive exec platform pc entities (w, []) = (s', inr (m, log)) ->
  (forall e c, m !! e = Some c -> In e entities) /\
  (log = [] -> forall e, In e entities -> is_Some (m !! e)).
Proof.
  intros Hrun.
  destruct (run_noninteractive_spec exec platform pc entities (w, [])) as (rs & s'' & Hfr & m' & Hm & Hlook).
  rewrite Hm in Hrun. injection Hrun as <- <- <-.
  pose proof (fetch_run_length _ _ _ _ _ _ _ Hfr) as Hlen.
  split.
  - intros e c Hc. rewrite Hlook in Hc. apply last_success_in in Hc as (g & Hin & He).
    apply in_combine_l in Hin. rewrite <- groupby_concat. apply in_concat.
    exists g.2. split; [by apply in_map|]. by apply list_elem_of_In.
  - intros Hlog e He. rewrite Hlook.
    destruct (groupby_member _ _ He) as (gr & Hgr & Heg & _).
    destruct (in_combine_exists (groupby entities) rs gr) as [r Hr]; [lia|done|].
    destruct (failed_log_nil _ _ _ _ Hlog Hr) as [c ->].
    destruct (last_success e _) eqn:E; [done|].
    pose proof (proj1 (last_success_none _ _) E) as E'. exfalso. apply (E' gr c Hr). by apply list_elem_of_In.
Qed.

End RunMore.

Section HookMore.
Variables (uid gid : Z) (groups : list Z).

Lemma forallb_pointwise {A : Type} (F G : A -> bool) (l : list A) :
  (forall x, In x l -> F x = G x) -> forallb F l = forallb G l.
Proof.
  induction l as [|x l IH]; intros H; simpl; [done|].
  rewrite H by (left; done). f_equal. apply IH. intros y Hy. apply H. by right.
Qed.



Lemma dir_searchable_insert_file (f : Hook.fs) (p q : Hook.path) (d : string) (m o g : Z) :
  (forall m' o' g', f !! p <> Some (Hook.Dir m' o' g')) ->
  Hook.dir_searchable uid gid groups (<[p := Hook.File d m o g]> f) q =
  Hook.dir_searchable uid gid groups f q.
Proof.
  intros H. unfold Hook.dir_searchable. destruct (decide (p = q)) as [<-|Hne].
  - rewrite lookup_insert_eq.
    destruct (f !! p) as [[|m' o' g']|] eqn:E; try done. exfalso. by apply (H m' o' g').
  - by rewrite lookup_insert_ne.
Qed.

(** Writing a file where there was no directory changes no lookup. *)
Lemma searchable_insert_file (f : Hook.fs) (p q : Hook.path) (d : string) (m o g : Z) :
  (forall m' o' g', f !! p <> Some (Hook.Dir m' o' g')) ->
  Hook.searchable uid gid groups (<[p := Hook.File d m o g]> f) q =
  Hook.searchable uid gid groups f q.
Proof.
  intros H. unfold Hook.searchable. apply forallb_pointwise. intros r _.
  by apply dir_searchable_insert_file.
Qed.

Lemma stat_insert_file_ne (f : Hook.fs) (p q : Hook.path) (d : string) (m o g : Z) :
  (forall m' o' g', f !! p <> Some (Hook.Dir m' o' g')) -> p <> q ->
  Hook.stat uid gid groups (<[p := Hook.File d m o g]> f) q = Hook.stat uid gid groups f q.
Proof.
  intros H Hne. unfold Hook.stat. rewrite searchable_insert_file by done.
  by rewrite lookup_insert_ne.
Qed.

Lemma stat_insert_file_eq (f : Hook.fs) (p : Hook.path) (d : string) (m o g : Z) :
  (forall m' o' g', f !! p <> Some (Hook.Dir m' o' g')) ->
  Hook.searchable uid gid groups f p = true ->
  Hook.stat uid gid groups (<[p := Hook.File d m o g]> f) p = Some (Hook.File d m o g).
Proof.
  intros H Hs. unfold Hook.stat. rewrite searchable_insert_file, Hs by done.
  by rewrite lookup_insert_eq.
Qed.

Lemma owner_ok (o : Z) : uid = 0 \/ o = uid -> (Z.eqb uid 0 || Z.eqb o uid) = true.
Proof. intros [H|H]; apply orb_true_iff; [left|right]; by apply Z.eqb_eq. Qed.

Lemma chmod_file (f : Hook.fs) (p : Hook.path) (d : string) (m o g mode : Z) :
  Hook.stat uid gid groups f p = Some (Hook.File d m o g) -> uid = 0 \/ o = uid ->
  Hook.chmod uid gid groups f p mode =
    inr (<[p := Hook.File d (Hook.chmod_mode uid gid groups g mode) o g]> f).
Proof. intros Hs Ho. unfold Hook.chmod. rewrite Hs. simpl. by rewrite owner_ok. Qed.


Lemma chmod_inr (f f' : Hook.fs) (p : Hook.path) (mode : Z) :
  Hook.chmod uid gid groups f p mode = inr f' ->
  exists n, Hook.stat uid gid groups f p = Some n /\
    f' = <[p := Hook.with_mode n (Hook.chmod_mode uid gid groups (Hook.group_of n) mode)]> f.
Proof.
  unfold Hook.chmod. destruct (Hook.stat _ _ _ f p) as [n|]; [|done].
  destruct (_ || _); [|done]. intros [= <-]. by eexists.
Qed.

Lemma chmod_mode_292 (g : Z) : Hook.chmod_mode uid gid groups g 292 = 292.
Proof. unfold Hook.chmod_mode. by destruct (_ || _). Qed.

Lemma access_292 (d : string) (o g : Z) :
  uid <> 0 -> Hook.access uid gid groups (Hook.File d 292 o g) 2 = false.
Proof.
  intros H. unfold Hook.access. rewrite (proj2 (Z.eqb_neq _ _) H). simpl.
  destruct (Z.eqb o uid); [reflexivity|]. by destruct (Hook.in_group _ _ g).
Qed.

Lemma open_read_inl (f : Hook.fs) (src : Hook.path) (e : Hook.error) :
  Hook.open_read uid gid groups f src = inl e -> e = Hook.IOError.
Proof.
  unfold Hook.open_read. destruct (Hook.stat _ _ _ f src) as [[d m o g|m o g]|]; try congruence.
  destruct (Hook.access _ _ _ _ 4); congruence.
Qed.

Lemma open_write_inr (f f1 : Hook.fs) (dst : Hook.path) (d : string) :
  Hook.open_write uid gid groups f dst d = inr f1 ->
  Hook.searchable uid gid groups f dst = true /\
  (forall m o g, f !! dst <> Some (Hook.Dir m o g)) /\
  exists m0 o0 g0, f1 = <[dst := Hook.File d m0 o0 g0]> f.
Proof.
  unfold Hook.open_write. destruct (Hook.searchable _ _ _ f dst); [|done].
  destruct (f !! dst) as [[d' m o g|m o g]|] eqn:E; [| done |].
  - destruct (Hook.access _ _ _ _ 2); [|done]. intros [= <-].
    split; [done|]. split; [intros ???; congruence|]. by eexists _, _, _.
  - destruct (f !! Hook.dirname dst) as [[|mp op gp]|]; try done.
    destruct (_ && _); [|done]. intros [= <-].
    split; [done|]. split; [intros ???; congruence|]. by eexists _, _, _.
Qed.



(** A missing source, or a directory source copied to a path that is not
    a directory, makes the hook fail with [IOError]. *)
Theorem execute_missing_source (f : Hook.fs) (src tgt : Hook.path) :
  (f !! src = None \/
   (exists m o g, f !! src = Some (Hook.Dir m o g)) /\ Hook.isdir uid gid groups f tgt = false) ->
  Hook.execute uid gid groups f src tgt = inl Hook.IOError.
Proof.
  intros Hsrc.
  assert (Hr : Hook.open_read uid gid groups f src = inl Hook.IOError).
  { unfold Hook.open_read, Hook.stat. destruct (Hook.searchable _ _ _ f src); [|done].
    by destruct Hsrc as [-> | [(m & o & g & ->) _]]. }
  unfold Hook.execute, Hook.copy, Hook.copyfile.
  destruct Hsrc as [Hn|[(m & o & g & Hd) Hnd]].
  - assert (Hst : Hook.stat uid gid groups f src = None).
    { unfold Hook.stat. by destruct (Hook.searchable _ _ _ f src). }
    unfold Hook.samefile. rewrite Hst, (bool_decide_eq_false_2 (is_Some None)) by (by intros [? ?]).
    simpl. by rewrite Hr.
  - rewrite Hnd. unfold Hook.samefile.
    destruct (decide (src = tgt)) as [<-|Hne].
    + unfold Hook.isdir in Hnd.
      destruct (Hook.stat _ _ _ f src) as [[|]|] eqn:E; try done.
      * unfold Hook.stat in E. destruct (Hook.searchable _ _ _ f src); congruence.
      * rewrite (bool_decide_eq_false_2 (is_Some None)) by (by intros [? ?]).
        simpl. by rewrite Hr.
    + rewrite (bool_decide_eq_false_2 (src = tgt)) by done. rewrite andb_false_r.
      by rewrite Hr.
Qed.

(** Publishing a file onto itself, through directories the user may
    search, fails with [shutil.Error]. *)
Theorem execute_same_file (f : Hook.fs) (src : Hook.path) (d : string) (m o g : Z) :
  f !! src = Some (Hook.File d m o g) -> Hook.searchable uid gid groups f src = true ->
  Hook.execute uid gid groups f src src = inl Hook.SameFileError.
Proof.
  intros Hsrc Hs.
  assert (Hst : Hook.stat uid gid groups f src = Some (Hook.File d m o g)).
  { unfold Hook.stat. by rewrite Hs. }
  unfold Hook.execute, Hook.copy, Hook.isdir. rewrite Hst.
  unfold Hook.copyfile, Hook.samefile. rewrite Hst.
  rewrite !bool_decide_eq_true_2 by (done || by eexists). done.
Qed.

(** A new target in a directory that does not exist makes the hook fail
    with [IOError]. *)
Theorem execute_missing_parent (f : Hook.fs) (src tgt : Hook.path) (d : string) (m o g : Z) :
  f !! src = Some (Hook.File d m o g) -> f !! tgt = None ->
  (forall md mo mg, f !! Hook.dirname tgt <> Some (Hook.Dir md mo mg)) ->
  Hook.execute uid gid groups f src tgt = inl Hook.IOError.
Proof.
  intros _ Htgt Hpar.
  assert (Hst : Hook.stat uid gid groups f tgt = None).
  { unfold Hook.stat. destruct (Hook.searchable _ _ _ f tgt); [exact Htgt|done]. }
  unfold Hook.execute, Hook.copy, Hook.isdir. rewrite Hst.
  unfold Hook.copyfile, Hook.samefile. rewrite Hst.
  rewrite (bool_decide_eq_false_2 (is_Some None)) by (by intros [? ?]).
  rewrite andb_false_r. simpl.
  destruct (Hook.open_read _ _ _ f src) as [e|d'] eqn:Er.
  - by rewrite (open_read_inl _ _ _ Er).
  - unfold Hook.open_write. destruct (Hook.searchable _ _ _ f tgt); [|done].
    rewrite Htgt. destruct (f !! Hook.dirname tgt) as [[|md mo mg]|] eqn:E; try done.
    exfalso. by apply (Hpar md mo mg).
Qed.

(** A readable source published to a different path that is not a
    directory: a new file in a directory the user may write and search,
    or an existing file the user may write and owns (or any, for root).
    The hook succeeds and its only change is that the target becomes a
    file with the source's content and mode 0444. *)
Theorem execute_file_target (f : Hook.fs) (src tgt : Hook.path) (d : string) (m so sg : Z) :
  f !! src = Some (Hook.File d m so sg) -> Hook.searchable uid gid groups f src = true ->
  Hook.access uid gid groups (Hook.File d m so sg) 4 = true -> src <> tgt ->
  (f !! tgt = None /\ Hook.searchable uid gid groups f tgt = true /\
   (exists mp op gp, f !! Hook.dirname tgt = Some (Hook.Dir mp op gp) /\
      Hook.access uid gid groups (Hook.Dir mp op gp) 2 = true /\
      Hook.access uid gid groups (Hook.Dir mp op gp) 1 = true) \/
   exists d' mt ot gt, f !! tgt = Some (Hook.File d' mt ot gt) /\
      Hook.searchable uid gid groups f tgt = true /\
      Hook.access uid gid groups (Hook.File d' mt ot gt) 2 = true /\ (uid = 0 \/ ot = uid)) ->
  exists o g, Hook.execute uid gid groups f src tgt = inr (<[tgt := Hook.File d 292 o g]> f).
Proof.
  intros Hsrc Hss Hrd Hne Htgt.
  assert (Hnd : forall m' o' g', f !! tgt <> Some (Hook.Dir m' o' g')).
  { intros m' o' g'. destruct Htgt as [[-> _]|(d' & mt & ot & gt & -> & _)]; done. }
  assert (Hst : Hook.searchable uid gid groups f tgt = true).
  { by destruct Htgt as [(_ & H & _)|(d' & mt & ot & gt & _ & H & _)]. }
  assert (Hsrc' : Hook.stat uid gid groups f src = Some (Hook.File d m so sg)).
  { unfold Hook.stat. by rewrite Hss. }
  assert (Hisd : Hook.isdir uid gid groups f tgt = false).
  { unfold Hook.isdir, Hook.stat. rewrite Hst.
    destruct Htgt as [[-> _]|(d' & mt & ot & gt & -> & _)]; done. }
  assert (Hw : exists m0 o0 g0, (uid = 0 \/ o0 = uid) /\
      Hook.open_write uid gid groups f tgt d = inr (<[tgt := Hook.File d m0 o0 g0]> f)).
  { unfold Hook.open_write. rewrite Hst.
    destruct Htgt as [(-> & _ & mp & op & gp & -> & Hw & Hx)|(d' & mt & ot & gt & -> & _ & Hw & Ho)].
    - rewrite Hw, Hx. simpl. eexists _, _, _. split; [right; reflexivity|reflexivity].
    - rewrite Hw. by eexists _, _, _. }
  destruct Hw as (m0 & o0 & g0 & Ho & Hw).
  unfold Hook.execute, Hook.copy. rewrite Hisd.
  unfold Hook.copyfile, Hook.samefile.
  rewrite (bool_decide_eq_false_2 (src = tgt)) by done. rewrite andb_false_r.
  unfold Hook.open_read. rewrite Hsrc', Hrd. rewrite Hw.
  unfold Hook.copymode. rewrite stat_insert_file_ne by done. rewrite Hsrc'. simpl.
  rewrite (chmod_file _ _ d m0 o0 g0) by (done || by apply stat_insert_file_eq).
  rewrite (chmod_file _ _ d (Hook.chmod_mode uid gid groups g0 (Z.land m 4095)) o0 g0).
  - rewrite !insert_insert_eq, chmod_mode_292. by eexists _, _.
  - apply stat_insert_file_eq; [|by rewrite searchable_insert_file].
    intros ???. by rewrite lookup_insert_eq.
  - done.
Qed.


(** For a user other than root, publishing again to the same
    (non-directory) target fails: the first publish left it read-only. *)
Theorem execute_twice_fails (f f' : Hook.fs) (src tgt : Hook.path) :
  uid <> 0 -> Hook.isdir uid gid groups f tgt = false ->
  Hook.execute uid gid groups f src tgt = inr f' ->
  Hook.execute uid gid groups f' src tgt = inl Hook.IOError.
Proof.
  intros Hroot Hnotdir Hrun.
  unfold Hook.execute, Hook.copy in Hrun. rewrite Hnotdir in Hrun.
  unfold Hook.copyfile in Hrun.
  destruct (Hook.samefile _ _ _ f src tgt) eqn:Hsame; [discriminate|].
  destruct (Hook.open_read _ _ _ f src) as [|d] eqn:Hr; [discriminate|].
  destruct (Hook.open_write _ _ _ f tgt d) as [|f1] eqn:Hw; [discriminate|].
  apply open_write_inr in Hw as (Hst & Hnd & m0 & o0 & g0 & ->).
  assert (Hne : src <> tgt).
  { intros <-. unfold Hook.open_read in Hr.
    destruct (Hook.stat _ _ _ f src) eqn:E; [|discriminate].
    unfold Hook.samefile in Hsame. rewrite E in Hsame.
    rewrite !bool_decide_eq_true_2 in Hsame by (done || by eexists). discriminate. }
  unfold Hook.copymode in Hrun. destruct (Hook.stat _ _ _ _ src) as [n|]; [|discriminate].
  destruct (Hook.chmod _ _ _ _ tgt _) as [|f2] eqn:Hc1; [discriminate|].
  apply chmod_inr in Hc1 as (n1 & Hs1 & ->).
  rewrite stat_insert_file_eq in Hs1 by done. injection Hs1 as <-.
  apply chmod_inr in Hrun as (n2 & Hs2 & ->).
  cbn [Hook.with_mode Hook.group_of] in Hs2 |- *.
  rewrite insert_insert_eq in Hs2. rewrite stat_insert_file_eq in Hs2 by done.
  injection Hs2 as <-. cbn [Hook.with_mode Hook.group_of].
  rewrite !insert_insert_eq, chmod_mode_292.
  assert (Hst' : Hook.stat uid gid groups (<[tgt := Hook.File d 292 o0 g0]> f) tgt =
                 Some (Hook.File d 292 o0 g0)) by (by apply stat_insert_file_eq).
  unfold Hook.execute, Hook.copy, Hook.isdir. rewrite Hst'. cbv beta iota zeta.
  unfold Hook.copyfile, Hook.samefile.
  rewrite (bool_decide_eq_false_2 (src = tgt)) by done. rewrite andb_false_r.
  destruct (Hook.open_read uid gid groups (<[tgt := Hook.File d 292 o0 g0]> f) src)
    as [e|d'] eqn:Er.
  - by rewrite (open_read_inl _ _ _ Er).
  - unfold Hook.open_write. rewrite searchable_insert_file, Hst by done.
    rewrite lookup_insert_eq. by rewrite access_292.
Qed.

End HookMore.

(* ================================================================== *)
(** * Witnesses and counterexamples *)

Lemma parse_well_formed_cache_witness :
  Forall (fun l => has_linebreak l = false /\ (5 <= ntokens l)%nat)
    ["publish$Publish$$$icons/publish.png"; "review$Review$x$y$icons/review.png"] /\
  exists cmds,
    _parse_cached_commands
      (join_lines ["publish$Publish$$$icons/publish.png"; "review$Review$x$y$icons/review.png"])
      = inr cmds /\
    Forall2 (fun l c => name c = token l 0 /\ title c = token l 1 /\ icon c = token l 4)
      ["publish$Publish$$$icons/publish.png"; "review$Review$x$y$icons/review.png"] cmds.
Proof.
  assert (H : Forall (fun l => has_linebreak l = false /\ (5 <= ntokens l)%nat)
    ["publish$Publish$$$icons/publish.png"; "review$Review$x$y$icons/review.png"]).
  { repeat constructor. }
  split; [exact H|]. apply parse_well_formed_cache. exact H.
Defined.

Lemma parse_malformed_cache_witness :
  let data := String.append "publish$Publish$$$icons/publish.png"
                (String Py.LF "publish$Publish File$icon.png") in
  (exists l, In l (Py.splitlines data) /\ (ntokens l < 5)%nat) /\
  exists l, In l (Py.splitlines data) /\ (ntokens l < 5)%nat /\
    _parse_cached_commands data = inl (ErrMissingTokens l data) /\
    (forall cmds, _parse_cached_commands data <> inr cmds).
Proof.
  intros data.
  assert (H : exists l, In l (Py.splitlines data) /\ (ntokens l < 5)%nat).
  { exists "publish$Publish File$icon.png". split.
    - vm_compute. right. left. reflexivity.
    - vm_compute. repeat constructor. }
  split; [exact H|]. apply parse_malformed_cache. exact H.
Defined.

Lemma parse_trailing_newline_witness :
  "publish$Publish File$icon.png" <> EmptyString /\
  ends_in_lf "publish$Publish File$icon.png" = false /\
  _parse_cached_commands
    (String.append "publish$Publish File$icon.png" (String Py.LF EmptyString)) =
  match _parse_cached_commands "publish$Publish File$icon.png" with
  | inl (ErrMissingTokens l _) =>
      inl (ErrMissingTokens l
             (String.append "publish$Publish File$icon.png" (String Py.LF EmptyString)))
  | r => r
  end.
Proof.
  assert (H1 : "publish$Publish File$icon.png" <> EmptyString) by discriminate.
  assert (H2 : ends_in_lf "publish$Publish File$icon.png" = false) by reflexivity.
  split; [exact H1|]. split; [exact H2|].
  apply (proj2 parse_trailing_newline); [exact H1|exact H2].
Defined.

(** C10: appending a newline to a malformed text changes the error: its
    full-cache text gains the newline. *)
Lemma parse_trailing_newline_counterexample :
  "publish$Publish File$icon.png" <> EmptyString /\
  ends_in_lf "publish$Publish File$icon.png" = false /\
  _parse_cached_commands "publish$Publish File$icon.png" =
    inl (ErrMissingTokens "publish$Publish File$icon.png" "publish$Publish File$icon.png") /\
  _parse_cached_commands
    (String.append "publish$Publish File$icon.png" (String Py.LF EmptyString)) <>
  _parse_cached_commands "publish$Publish File$icon.png".
Proof.
  split; [discriminate|]. split; [reflexivity|]. split; [vm_compute; reflexivity|].
  vm_compute. discriminate.
Qed.

Lemma load_rebuild_iff_stale_witness :
  [("Task", 5)] <> [] /\
  let r1 := (counting_exec answers_stale 0%nat sample_pc "shotgun_get_actions"
               [_get_cache_name sample_platform "Task"; _get_env_name "Task"]).2 in
  let run := _load_cached_data (counting_exec answers_stale) sample_platform sample_pc
               "Task" [("Task", 5)] (0%nat, []) in
  ((exists args, In (Call sample_pc "shotgun_cache_actions" args) run.1.2) <->
     (exists o, r1 = Failed (CPE 1 o) \/ r1 = Failed (CPE 2 o))) /\
  (forall out, r1 = Ok out ->
     run.2 = inr out /\
     run.1.2 = [Call sample_pc "shotgun_get_actions"
                  [_get_cache_name sample_platform "Task"; _get_env_name "Task"]]) /\
  (forall e, r1 = Failed e -> returncode e <> 1 -> returncode e <> 2 ->
     run.2 = inl (TankError (ErrGetCacheContent e)) /\
     run.1.2 = [Call sample_pc "shotgun_get_actions"
                  [_get_cache_name sample_platform "Task"; _get_env_name "Task"]]).
Proof.
  assert (H : [("Task", 5)] <> @nil entity) by discriminate.
  split; [exact H|]. exact (load_rebuild_iff_stale _ _ _ _ _ _ H).
Defined.

Lemma load_rebuild_fallback_witness :
  let exec := counting_exec answers_stale in
  let cache := _get_cache_name sample_platform "Task" in
  let env := _get_env_name "Task" in
  let s1 := exec 0%nat sample_pc "shotgun_get_actions" [cache; env] in
  let new_args := [("Task")%string; cache; Py.str_int 5] in
  let old_args := [("Task")%string; cache] in
  let s2 := exec s1.1 sample_pc "shotgun_cache_actions" new_args in
  let s3 := exec s2.1 sample_pc "shotgun_cache_actions" old_args in
  let run := _load_cached_data exec sample_platform sample_pc "Task" [("Task", 5)] (0%nat, []) in
  s1.2 = Failed (CPE 2 "cache not found") /\ (2 = 1 \/ 2 = 2) /\
  nth_error run.1.2 1 = Some (Call sample_pc "shotgun_cache_actions" new_args) /\
  (In (Call sample_pc "shotgun_cache_actions" old_args) run.1.2 <-> exists e2, s2.2 = Failed e2) /\
  (forall e2, s2.2 = Failed e2 ->
     nth_error run.1.2 2 = Some (Call sample_pc "shotgun_cache_actions" old_args)) /\
  (forall e2 e3, s2.2 = Failed e2 -> s3.2 = Failed e3 ->
     run.2 = inl (TankError (ErrUpdateCache e3)) /\ length run.1.2 = 3%nat).
Proof.
  cbv zeta.
  assert (H1 : (counting_exec answers_stale 0%nat sample_pc "shotgun_get_actions"
                 [_get_cache_name sample_platform "Task"; _get_env_name "Task"]).2
               = Failed (CPE 2 "cache not found")) by reflexivity.
  assert (H2 : returncode (CPE 2 "cache not found") = 1 \/ returncode (CPE 2 "cache not found") = 2)
    by (right; reflexivity).
  split; [exact H1|]. split; [exact H2|].
  exact (load_rebuild_fallback (counting_exec answers_stale) sample_platform sample_pc "Task"
           ("Task", 5) [] 0%nat (CPE 2 "cache not found") H1 H2).
Defined.

(** C5: an entity listed twice, in a group that succeeds and in a later
    group of the same type that fails, is in the result although it
    belongs to a failed group. *)
Lemma run_noninteractive_isolates_failures_counterexample :
  groupby [("Shot", 1); ("Task", 2); ("Shot", 1)] =
    [("Shot"%string, [("Shot"%string, 1)]); ("Task"%string, [("Task"%string, 2)]);
     ("Shot"%string, [("Shot"%string, 1)])] /\
  match (run_noninteractive (counting_exec answers_flaky) sample_platform sample_pc
           [("Shot", 1); ("Task", 2); ("Shot", 1)] (0%nat, [])).2 with
  | inr (m, log) =>
      log = [(sample_pc, "Shot"%string,
              ErrGetCacheContent (CPE 3 "tank command crashed"))] /\
      m !! ("Shot"%string, 1) = Some [Command "publish" "Publish" "icons/publish.png"]
  | inl _ => False
  end.
Proof. split; [reflexivity|]. vm_compute. split; reflexivity. Qed.

Lemma run_noninteractive_contiguous_types_witness :
  exists (m : gmap entity (list command)) (s' : st),
    contiguous [("Shot", 100); ("Shot", 101); ("Task", 5)] /\
    run_noninteractive (counting_exec answers_fresh) sample_platform sample_pc
      [("Shot", 100); ("Shot", 101); ("Task", 5)] (0%nat, []) = (s', inr (m, [])) /\
    let entities := [("Shot"%string, 100); ("Shot"%string, 101); ("Task"%string, 5)] in
    concat (map snd (groupby entities)) = entities /\
    Forall (fun gr => Forall (fun y => fst y = gr.1) gr.2) (groupby entities) /\
    length (groupby entities) = distinct_types entities /\
    exists cs : list (string * list command),
      map fst cs = map fst (groupby entities) /\
      length cs = distinct_types entities /\
      (forall e, In e entities -> exists c, In (fst e, c) cs /\ m !! e = Some c) /\
      (forall e c, m !! e = Some c -> exists t, In (t, c) cs).
Proof.
  pose (r := run_noninteractive (counting_exec answers_fresh) sample_platform sample_pc
               [("Shot", 100); ("Shot", 101); ("Task", 5)] (0%nat, [])).
  assert (Hr : r = (r.1, inr (match r.2 with inr (m, _) => m | inl _ => ∅ end, [])))
    by (vm_compute; reflexivity).
  assert (Hc : contiguous [("Shot", 100); ("Shot", 101); ("Task", 5)])
    by (apply contiguousb_sound; reflexivity).
  exists (match r.2 with inr (m, _) => m | inl _ => ∅ end), r.1.
  split; [exact Hc|]. split; [exact Hr|].
  exact (run_noninteractive_contiguous_types (counting_exec answers_fresh) sample_platform
           sample_pc _ 0%nat _ _ Hc Hr).
Defined.

(** C6: two types whose caches both hold no command get equal lists: the
    result has one distinct list for two types. *)
Lemma run_noninteractive_contiguous_types_counterexample :
  contiguous [("Shot", 1); ("Task", 2)] /\
  distinct_types [("Shot", 1); ("Task", 2)] = 2%nat /\
  match (run_noninteractive (counting_exec answers_empty) sample_platform sample_pc
           [("Shot", 1); ("Task", 2)] (0%nat, [])).2 with
  | inr (m, log) =>
      log = [] /\ length (remove_dups (map snd (map_to_list m))) = 1%nat
  | inl _ => False
  end.
Proof.
  split; [apply contiguousb_sound; reflexivity|].
  split; [vm_compute; reflexivity|]. vm_compute. split; reflexivity.
Qed.

Lemma run_noninteractive_same_type_contiguous_witness :
  exists (m : gmap entity (list command)) (log : list log_entry) (s' : st),
    contiguous [("Shot", 100); ("Shot", 101); ("Task", 5)] /\
    run_noninteractive (counting_exec answers_fresh) sample_platform sample_pc
      [("Shot", 100); ("Shot", 101); ("Task", 5)] (0%nat, []) = (s', inr (m, log)) /\
    In ("Shot"%string, 100) [("Shot"%string, 100); ("Shot"%string, 101); ("Task"%string, 5)] /\
    In ("Shot"%string, 101) [("Shot"%string, 100); ("Shot"%string, 101); ("Task"%string, 5)] /\
    m !! ("Shot"%string, 100) = m !! ("Shot"%string, 101).
Proof.
  pose (r := run_noninteractive (counting_exec answers_fresh) sample_platform sample_pc
               [("Shot", 100); ("Shot", 101); ("Task", 5)] (0%nat, [])).
  pose (m := match r.2 with inr (m, _) => m | inl _ => ∅ end).
  pose (log := match r.2 with inr (_, l) => l | inl _ => [] end).
  assert (Hr : r = (r.1, inr (m, log))) by (vm_compute; reflexivity).
  assert (Hc : contiguous [("Shot", 100); ("Shot", 101); ("Task", 5)])
    by (apply contiguousb_sound; reflexivity).
  assert (H1 : In ("Shot"%string, 100) [("Shot"%string, 100); ("Shot"%string, 101); ("Task"%string, 5)])
    by (simpl; auto).
  assert (H2 : In ("Shot"%string, 101) [("Shot"%string, 100); ("Shot"%string, 101); ("Task"%string, 5)])
    by (simpl; auto).
  exists m, log, r.1.
  split; [exact Hc|]. split; [exact Hr|]. split; [exact H1|]. split; [exact H2|].
  exact (run_noninteractive_same_type_contiguous (counting_exec answers_fresh) sample_platform
           sample_pc _ 0%nat _ _ _ _ _ Hc Hr H1 H2 eq_refl).
Defined.

(** C7: when the entities of one type are not contiguous, each run is
    fetched on its own, and two entities of the same type can be given
    different command lists. *)
Lemma run_noninteractive_same_type_contiguous_counterexample :
  contiguousb [("Shot", 1); ("Task", 2); ("Shot", 3)] = false /\
  match (run_noninteractive (counting_exec answers_changing) sample_platform sample_pc
           [("Shot", 1); ("Task", 2); ("Shot", 3)] (0%nat, [])).2 with
  | inr (m, log) =>
      log = [] /\
      m !! ("Shot"%string, 1) = Some [Command "publish" "Publish" "icons/publish.png"] /\
      m !! ("Shot"%string, 3) = Some [Command "review" "Review" "icons/review.png"]
  | inl _ => False
  end.
Proof. split; [reflexivity|]. vm_compute. repeat split. Qed.

Lemma cache_and_env_names_witness :
  _get_cache_name "linux2" "Shot" = "shotgun_linux_shot_detailed.txt"%string /\
  _get_env_name "Shot" = "shotgun_shot.yml"%string.
Proof.
  destruct (cache_and_env_names "linux2" "Shot") as (_ & _ & Hlinux & _ & Henv).
  split.
  - rewrite (Hlinux eq_refl). reflexivity.
  - rewrite Henv. reflexivity.
Defined.

(** C9: when [target_path] is an existing directory, the copy is placed
    inside it and keeps the source's mode 0644, and it is the directory
    that is made read-only. *)
Lemma publish_file_copies_read_only_counterexample :
  match Hook.execute sample_uid sample_gid [] sample_fs ["scene.max"%string] ["publish"%string] with
  | inr f' =>
      f' !! ["publish"%string] = Some (Hook.Dir 292 1000 1000) /\
      f' !! ["publish"%string; "scene.max"%string] = Some (Hook.File "scene data" 420 1000 1000)
  | inl _ => False
  end.
Proof. vm_compute. split; reflexivity. Qed.

Lemma parse_cached_commands_app_witness :
  ("publish$Publish$$$icons/publish.png"%string <> EmptyString /\
   ends_in_lf "publish$Publish$$$icons/publish.png" = false) /\
  _parse_cached_commands
    (String.append "publish$Publish$$$icons/publish.png"
       (String Py.LF "review$Review$$$icons/review.png")) =
  inr [Command "publish" "Publish" "icons/publish.png";
       Command "review" "Review" "icons/review.png"].
Proof.
  assert (H1 : "publish$Publish$$$icons/publish.png"%string <> EmptyString) by discriminate.
  assert (H2 : ends_in_lf "publish$Publish$$$icons/publish.png" = false) by reflexivity.
  split; [split; assumption|].
  rewrite (parse_cached_commands_app _ "review$Review$$$icons/review.png" H1 H2).
  vm_compute. reflexivity.
Defined.

Lemma parse_cached_commands_line_endings_witness :
  Forall (fun l => has_linebreak l = false /\ l <> EmptyString)
    ["publish$Publish$$$icons/publish.png"%string; "review$Review$$$icons/review.png"%string] /\
  _parse_cached_commands
    (join_lines_with sep_CRLF
       ["publish$Publish$$$icons/publish.png"%string; "review$Review$$$icons/review.png"%string]) =
  inr [Command "publish" "Publish" "icons/publish.png";
       Command "review" "Review" "icons/review.png"].
Proof.
  assert (Hall : Forall (fun l => has_linebreak l = false /\ l <> EmptyString)
    ["publish$Publish$$$icons/publish.png"%string; "review$Review$$$icons/review.png"%string])
    by (repeat constructor; discriminate).
  split; [exact Hall|].
  rewrite (parse_cached_commands_line_endings _ sep_CRLF (or_intror (or_intror eq_refl)) Hall).
  vm_compute. reflexivity.
Defined.

Lemma load_cached_data_calls_witness :
  (_load_cached_data (counting_exec answers_stale) sample_platform sample_pc "Task"
     [("Task", 5)] (0%nat, [])).2 = inr "publish$Publish$$$icons/publish.png"%string /\
  last (_load_cached_data (counting_exec answers_stale) sample_platform sample_pc "Task"
          [("Task", 5)] (0%nat, [])).1.2 =
    Some (Call sample_pc "shotgun_get_actions"
            [_get_cache_name sample_platform "Task"; _get_env_name "Task"]).
Proof.
  assert (H : (_load_cached_data (counting_exec answers_stale) sample_platform sample_pc "Task"
     [("Task", 5)] (0%nat, [])).2 = inr "publish$Publish$$$icons/publish.png"%string)
    by (vm_compute; reflexivity).
  split; [exact H|].
  destruct (load_cached_data_calls (counting_exec answers_stale) sample_platform sample_pc
              "Task" [("Task", 5)] 0%nat) as (_ & _ & _ & Hlast).
  exact (Hlast _ H).
Defined.

Lemma load_cached_data_no_entities_witness :
  (counting_exec answers_stale 0%nat sample_pc "shotgun_get_actions"
     [_get_cache_name sample_platform "Task"; _get_env_name "Task"]).2 =
    Failed (CPE 2 "cache not found") /\
  (_load_cached_data (counting_exec answers_stale) sample_platform sample_pc "Task" []
     (0%nat, [])).2 = inl IndexError.
Proof.
  split; [reflexivity|].
  rewrite (load_cached_data_no_entities (counting_exec answers_stale) sample_platform sample_pc
             "Task" 0%nat (CPE 2 "cache not found") eq_refl (or_intror eq_refl)).
  reflexivity.
Defined.

Lemma load_cached_data_after_rebuild_witness :
  (counting_exec answers_stale 0%nat sample_pc "shotgun_get_actions"
     [_get_cache_name sample_platform "Task"; _get_env_name "Task"]).2 =
    Failed (CPE 2 "cache not found") /\
  _load_cached_data (counting_exec answers_stale) sample_platform sample_pc "Task"
    [("Task", 5)] (0%nat, []) =
  ((4%nat,
    [Call sample_pc "shotgun_get_actions"
       [_get_cache_name sample_platform "Task"; _get_env_name "Task"];
     Call sample_pc "shotgun_cache_actions" ["Task"; _get_cache_name sample_platform "Task"; "5"];
     Call sample_pc "shotgun_cache_actions" ["Task"; _get_cache_name sample_platform "Task"];
     Call sample_pc "shotgun_get_actions"
       [_get_cache_name sample_platform "Task"; _get_env_name "Task"]]),
   inr "publish$Publish$$$icons/publish.png"%string).
Proof.
  split; [reflexivity|].
  destruct (load_cached_data_after_rebuild (counting_exec answers_stale) sample_platform
              sample_pc "Task" ("Task", 5) [] 0%nat (CPE 2 "cache not found")
              eq_refl (or_intror eq_refl)) as [_ H].
  specialize (H (CPE 1 "unexpected argument") "" eq_refl eq_refl). cbv zeta in H.
  rewrite H. vm_compute. reflexivity.
Defined.

Lemma groupby_maximal_runs_witness :
  nth_error (groupby [("Shot", 1); ("Shot", 2); ("Task", 3)]) 0 =
    Some ("Shot"%string, [("Shot"%string, 1); ("Shot"%string, 2)]) /\
  nth_error (groupby [("Shot", 1); ("Shot", 2); ("Task", 3)]) 1 =
    Some ("Task"%string, [("Task"%string, 3)]) /\
  "Shot"%string <> "Task"%string.
Proof.
  assert (H0 : nth_error (groupby [("Shot", 1); ("Shot", 2); ("Task", 3)]) 0 =
    Some ("Shot"%string, [("Shot"%string, 1); ("Shot"%string, 2)])) by reflexivity.
  assert (H1 : nth_error (groupby [("Shot", 1); ("Shot", 2); ("Task", 3)]) 1 =
    Some ("Task"%string, [("Task"%string, 3)])) by reflexivity.
  split; [exact H0|]. split; [exact H1|].
  destruct (groupby_maximal_runs [("Shot", 1); ("Shot", 2); ("Task", 3)]) as (_ & _ & Hadj).
  exact (Hadj 0%nat _ _ H0 H1).
Defined.

Lemma run_noninteractive_keys_witness :
  exists (m : gmap entity (list command)) (log : list log_entry) (s' : st),
    run_noninteractive (counting_exec answers_fresh) sample_platform sample_pc
      [("Shot", 1); ("Task", 2); ("Shot", 3)] (0%nat, []) = (s', inr (m, log)) /\
    log = [] /\ is_Some (m !! ("Shot"%string, 3)) /\
    (forall e c, m !! e = Some c ->
       In e [("Shot"%string, 1); ("Task"%string, 2); ("Shot"%string, 3)]).
Proof.
  pose (r := run_noninteractive (counting_exec answers_fresh) sample_platform sample_pc
               [("Shot", 1); ("Task", 2); ("Shot", 3)] (0%nat, [])).
  pose (m := match r.2 with inr (m, _) => m | inl _ => ∅ end).
  pose (log := match r.2 with inr (_, l) => l | inl _ => [] end).
  assert (Hr : r = (r.1, inr (m, log))) by (vm_compute; reflexivity).
  assert (Hlog : log = []) by (vm_compute; reflexivity).
  destruct (run_noninteractive_keys (counting_exec answers_fresh) sample_platform sample_pc
              _ 0%nat _ _ _ Hr) as [Hin Hall].
  exists m, log, r.1. split; [exact Hr|]. split; [exact Hlog|]. split; [|exact Hin].
  apply (Hall Hlog). simpl. auto.
Defined.

Lemma execute_missing_source_witness :
  sample_fs !! ["missing.max"%string] = None /\
  Hook.execute sample_uid sample_gid [] sample_fs ["missing.max"%string] ["publish"%string] =
    inl Hook.IOError.
Proof.
  assert (H : sample_fs !! ["missing.max"%string] = None) by reflexivity.
  split; [exact H|].
  exact (execute_missing_source sample_uid sample_gid [] sample_fs _ _ (or_introl H)).
Defined.

Lemma execute_same_file_witness :
  sample_fs !! ["scene.max"%string] = Some (Hook.File "scene data" 420 1000 1000) /\
  Hook.searchable sample_uid sample_gid [] sample_fs ["scene.max"%string] = true /\
  Hook.execute sample_uid sample_gid [] sample_fs ["scene.max"%string] ["scene.max"%string] =
    inl Hook.SameFileError.
Proof.
  assert (H : sample_fs !! ["scene.max"%string] = Some (Hook.File "scene data" 420 1000 1000))
    by reflexivity.
  assert (Hs : Hook.searchable sample_uid sample_gid [] sample_fs ["scene.max"%string] = true)
    by reflexivity.
  split; [exact H|]. split; [exact Hs|].
  exact (execute_same_file sample_uid sample_gid [] sample_fs _ _ _ _ _ H Hs).
Defined.

Lemma execute_missing_parent_witness :
  sample_fs !! ["renders"%string; "scene.max"%string] = None /\
  sample_fs !! ["renders"%string] = None /\
  Hook.execute sample_uid sample_gid [] sample_fs ["scene.max"%string]
    ["renders"%string; "scene.max"%string] = inl Hook.IOError.
Proof.
  assert (Hs : sample_fs !! ["scene.max"%string] = Some (Hook.File "scene data" 420 1000 1000))
    by reflexivity.
  assert (Ht : sample_fs !! ["renders"%string; "scene.max"%string] = None) by reflexivity.
  assert (Hp : sample_fs !! ["renders"%string] = None) by reflexivity.
  split; [exact Ht|]. split; [exact Hp|].
  apply (execute_missing_parent sample_uid sample_gid [] sample_fs _ _ _ _ _ _ Hs Ht).
  intros md mo mg H. unfold Hook.dirname in H. simpl in H. rewrite Hp in H. discriminate.
Defined.

Lemma execute_file_target_witness :
  exists o g,
    Hook.execute sample_uid sample_gid [] sample_fs ["scene.max"%string]
      ["publish"%string; "scene.max"%string] =
    inr (<[["publish"%string; "scene.max"%string] := Hook.File "scene data" 292 o g]> sample_fs).
Proof.
  apply (execute_file_target sample_uid sample_gid [] sample_fs ["scene.max"%string]
           ["publish"%string; "scene.max"%string] "scene data" 420 1000 1000).
  - reflexivity.
  - reflexivity.
  - reflexivity.
  - discriminate.
  - left. split; [reflexivity|]. split; [reflexivity|].
    exists 493, 1000, 1000. split; [reflexivity|]. split; reflexivity.
Defined.


Lemma execute_twice_fails_witness :
  exists f',
    sample_uid <> 0 /\
    Hook.isdir sample_uid sample_gid [] sample_fs ["publish"%string; "scene.max"%string] = false /\
    Hook.execute sample_uid sample_gid [] sample_fs ["scene.max"%string]
      ["publish"%string; "scene.max"%string] = inr f' /\
    Hook.execute sample_uid sample_gid [] f' ["scene.max"%string]
      ["publish"%string; "scene.max"%string] = inl Hook.IOError.
Proof.
  pose (r := Hook.execute sample_uid sample_gid [] sample_fs ["scene.max"%string]
               ["publish"%string; "scene.max"%string]).
  pose (f' := match r with inr f => f | inl _ => ∅ end).
  assert (Hr : r = inr f') by (vm_compute; reflexivity).
  assert (Hro : sample_uid <> 0) by (unfold sample_uid; lia).
  assert (Hnd : Hook.isdir sample_uid sample_gid [] sample_fs
                  ["publish"%string; "scene.max"%string] = false) by reflexivity.
  exists f'. split; [exact Hro|]. split; [exact Hnd|]. split; [exact Hr|].
  exact (execute_twice_fails sample_uid sample_gid [] sample_fs f' _ _ Hro Hnd Hr).
Defined.
